(** * The jobs plugin of RoadRunner: pipeline/driver registry and dispatch

    A shallow embedding of [plugins/jobs/plugin.go].  The plugin keeps three
    registries (driver constructors by driver-type name, live consumers by
    pipeline name, pipelines by name), forwards pushes to the consumer of the
    target pipeline and runs poller loops that drain the priority queue.

    Go methods with a pointer receiver become functions in a state-and-error
    monad over the [Plugin] record.  The brokers, the priority queue, the
    queue items and the worker pool are external collaborators: their
    behaviour is an interface ([Backend]) acting on a [World] they share with
    the plugin. *)

From Stdlib Require Import ZArith String List.
From stdpp Require Import gmap strings list fin_maps.

Open Scope Z_scope.
Open Scope string_scope.
Open Scope list_scope.

(** ** Errors ([github.com/spiral/errors]) *)

Inductive error : Type :=
| Errorf (msg : string)            (* errors.Errorf(format, args...), formatted *)
| E (op : string) (cause : error)  (* errors.E(op, err) *)
| Disabled                         (* errors.Disabled *)
| External (code : nat).           (* an error value made by a collaborator *)

(** ** Pipelines and jobs *)

Module pipeline.
(** Modelled from the spec: the declaration of [pipeline.Pipeline] is not
    part of this file; the plugin reads it only through [Name()],
    [Driver()] and [Priority()]. *)
Record Pipeline : Type := mk {
  Name : string;
  Driver : string;
  Priority : Z;
}.
End pipeline.

Module structs.
(** Modelled from the spec: the declaration of [structs.Job] is not part of
    this file; the plugin reads [Options.Pipeline] and reads and writes
    [Options.Priority]; the other fields are the spec's id and body. *)
Record Options_t : Type := mkOptions {
  Priority : Z;
  Pipeline : string;
  Delay : Z;
}.

Record Job : Type := mkJob {
  Ident : string;
  Payload : string;
  Options : Options_t;
}.

(** [j.Options.Priority = p] *)
Definition set_Priority (p : Z) (j : Job) : Job :=
  {| Ident := Ident j;
     Payload := Payload j;
     Options := {| Priority := p;
                   Pipeline := Pipeline (Options j);
                   Delay := Delay (Options j) |} |}.
End structs.

Module payload.
(** [payload.Payload], what the worker pool executes. *)
Record Payload : Type := mk {
  Context : string;
  Body : string;
}.
End payload.

Abbreviation Pipeline := pipeline.Pipeline.
Abbreviation Job := structs.Job.
Abbreviation Payload := payload.Payload.

(** A [*structs.Job] is an address in the store of job objects; an address
    with no object behind it plays the nil pointer. *)
Definition ptr : Type := nat.

(** ** The world shared with the collaborators *)

Record World (Ext : Type) : Type := mkWorld {
  jobs : gmap ptr Job;   (* job objects, by address *)
  ext : Ext;             (* brokers, priority queue, worker processes *)
}.
Arguments mkWorld {Ext} _ _.
Arguments jobs {Ext} _.
Arguments ext {Ext} _.

(** The interfaces the plugin consumes: [jobs.Constructor], [jobs.Consumer],
    [priorityqueue.Queue], [priorityqueue.Item], [pool.Pool] and
    [server.Server].  A method is a function of the world that returns its Go
    results and the world it leaves behind. *)
Class Backend : Type := {
  Ext : Type;
  Constructor : Type;
  Consumer : Type;
  Item : Type;
  Pool : Type;
  (* jobs.Constructor *)
  JobsConstruct : Constructor -> string -> World Ext -> (Consumer + error) * World Ext;
  FromPipeline : Constructor -> Pipeline -> World Ext -> (Consumer + error) * World Ext;
  (* jobs.Consumer *)
  cRegister : Consumer -> Pipeline -> World Ext -> option error * World Ext;
  cRun : Consumer -> Pipeline -> World Ext -> option error * World Ext;
  cStop : Consumer -> World Ext -> option error * World Ext;
  cPause : Consumer -> string -> World Ext -> World Ext;
  cResume : Consumer -> string -> World Ext -> World Ext;
  cPush : Consumer -> ptr -> World Ext -> option error * World Ext;
  (* priorityqueue.Queue: None when the queue is empty and the caller blocks *)
  ExtractMin : World Ext -> option (Item * World Ext);
  (* priorityqueue.Item *)
  iContext : Item -> World Ext -> (string + error) * World Ext;
  iBody : Item -> string;
  iAck : Item -> World Ext -> option error * World Ext;
  iNack : Item -> World Ext -> option error * World Ext;
  (* pool.Pool and server.Server *)
  pExec : Pool -> Payload -> World Ext -> option error * World Ext;
  NewWorkerPool : World Ext -> (Pool + error) * World Ext;
}.

(** ** What the plugin does that an observer can see *)

Inductive Level : Type := Debug | Info | Warn | Error.

Inductive LogVal : Type :=
| VStr (s : string)
| VErr (e : error).

Inductive EventKind : Type :=
| EventPipeRun
| EventDriverReady.

(** How a call of a plugin method ends. *)
Inductive Res (A : Type) : Type :=
| Ret (a : A)          (* normal return; for an [error] result, nil *)
| Fail (e : error)     (* return of a non-nil error *)
| Panic (msg : string) (* run-time panic *)
| Block.               (* the goroutine waits on a channel or on the queue *)
Arguments Ret {A} _.
Arguments Fail {A} _.
Arguments Panic {A} _.
Arguments Block {A}.

Section Plugin.
Context `{B : Backend}.

Inductive Action : Type :=
| Log (lvl : Level) (msg : string) (kv : list (string * LogVal))
| Event (ev : EventKind) (pipe : string) (driver : string)
| CallJobsConstruct (c : Constructor) (configKey : string)
| CallFromPipeline (c : Constructor) (pipe : Pipeline)
| CallRegister (d : Consumer) (pipe : Pipeline)
| CallRun (d : Consumer) (pipe : Pipeline)
| CallStop (d : Consumer)
| CallPause (d : Consumer) (name : string)
| CallResume (d : Consumer) (name : string)
| CallPush (d : Consumer) (j : ptr) (handed : option Job)
| CallContext (it : Item)
| CallAck (it : Item)
| CallNack (it : Item)
| CallExec (p : Payload)
| CallNewWorkerPool
| RLock
| RUnlock.

(** [type Plugin struct]; [errCh] is the channel made by [Serve], [pollers]
    counts the poller goroutines started, [trace] is the history of
    log records, events and calls to collaborators, oldest first. *)
Record Plugin : Type := mkPlugin {
  jobConstructors : gmap string Constructor;
  consumers : gmap string Consumer;
  pipelines : gmap string Pipeline;
  consume : gset string;
  workersPool : option Pool;
  numPollers : nat;
  stopCh : nat;
  errCh : list error;
  pollers : nat;
  world : World Ext;
  trace : list Action;
}.

Definition set_consumers (f : gmap string Consumer -> gmap string Consumer)
    (s : Plugin) : Plugin :=
  mkPlugin (jobConstructors s) (f (consumers s)) (pipelines s) (consume s)
    (workersPool s) (numPollers s) (stopCh s) (errCh s) (pollers s)
    (world s) (trace s).

Definition set_pipelines (f : gmap string Pipeline -> gmap string Pipeline)
    (s : Plugin) : Plugin :=
  mkPlugin (jobConstructors s) (consumers s) (f (pipelines s)) (consume s)
    (workersPool s) (numPollers s) (stopCh s) (errCh s) (pollers s)
    (world s) (trace s).

Definition set_jobConstructors
    (f : gmap string Constructor -> gmap string Constructor)
    (s : Plugin) : Plugin :=
  mkPlugin (f (jobConstructors s)) (consumers s) (pipelines s) (consume s)
    (workersPool s) (numPollers s) (stopCh s) (errCh s) (pollers s)
    (world s) (trace s).

Definition set_workersPool (p : option Pool) (s : Plugin) : Plugin :=
  mkPlugin (jobConstructors s) (consumers s) (pipelines s) (consume s)
    p (numPollers s) (stopCh s) (errCh s) (pollers s) (world s) (trace s).

Definition set_stopCh (n : nat) (s : Plugin) : Plugin :=
  mkPlugin (jobConstructors s) (consumers s) (pipelines s) (consume s)
    (workersPool s) (numPollers s) n (errCh s) (pollers s) (world s)
    (trace s).

Definition set_errCh (c : list error) (s : Plugin) : Plugin :=
  mkPlugin (jobConstructors s) (consumers s) (pipelines s) (consume s)
    (workersPool s) (numPollers s) (stopCh s) c (pollers s) (world s)
    (trace s).

Definition set_pollers (n : nat) (s : Plugin) : Plugin :=
  mkPlugin (jobConstructors s) (consumers s) (pipelines s) (consume s)
    (workersPool s) (numPollers s) (stopCh s) (errCh s) n (world s)
    (trace s).

Definition set_world (w : World Ext) (s : Plugin) : Plugin :=
  mkPlugin (jobConstructors s) (consumers s) (pipelines s) (consume s)
    (workersPool s) (numPollers s) (stopCh s) (errCh s) (pollers s) w
    (trace s).

Definition record (a : Action) (s : Plugin) : Plugin :=
  mkPlugin (jobConstructors s) (consumers s) (pipelines s) (consume s)
    (workersPool s) (numPollers s) (stopCh s) (errCh s) (pollers s)
    (world s) (trace s ++ [a]).

(** ** The monad: state, Go errors, panics and blocked goroutines *)

Definition M (A : Type) : Type := Plugin -> Res A * Plugin.

Definition ret {A} (a : A) : M A := fun s => (Ret a, s).
Definition throw {A} (e : error) : M A := fun s => (Fail e, s).
Definition panic {A} (msg : string) : M A := fun s => (Panic msg, s).
Definition block {A} : M A := fun s => (Block, s).

Definition bind {A C} (m : M A) (k : A -> M C) : M C :=
  fun s =>
    match m s with
    | (Ret a, s') => k a s'
    | (Fail e, s') => (Fail e, s')
    | (Panic msg, s') => (Panic msg, s')
    | (Block, s') => (Block, s')
    end.

Definition gets {A} (f : Plugin -> A) : M A := fun s => (Ret (f s), s).
Definition modify (f : Plugin -> Plugin) : M unit := fun s => (Ret tt, f s).

Notation "x <- m ;; k" := (bind m (fun x => k))
  (at level 100, m at next level, right associativity).
Notation "m ;; k" := (bind m (fun _ => k))
  (at level 100, right associativity).

(** [p.log.Error(msg, k, v)] and friends *)
Definition log (lvl : Level) (msg : string) (kv : list (string * LogVal)) : M unit :=
  modify (record (Log lvl msg kv)).

(** [p.events.Push(events.JobEvent{...})] *)
Definition push_event (ev : EventKind) (pipe driver : string) : M unit :=
  modify (record (Event ev pipe driver)).

(** A call to a collaborator: it is recorded, then it runs on the world. *)
Definition call {A} (a : Action) (f : World Ext -> A * World Ext) : M A :=
  fun s =>
    let (r, w) := f (world s) in
    (Ret r, set_world w (record a s)).

(** [d.Push(j)]: the record keeps the job object as it is handed over. *)
Definition call_Push (d : Consumer) (j : ptr) : M (option error) :=
  fun s => call (CallPush d j (jobs (world s) !! j)) (cPush d j) s.

(** Reading through a [*structs.Job]. *)
Definition deref (j : ptr) : M Job :=
  fun s =>
    match jobs (world s) !! j with
    | Some job => (Ret job, s)
    | None => (Panic "invalid memory address or nil pointer dereference", s)
    end.

(** Writing through a [*structs.Job]. *)
Definition store (j : ptr) (job : Job) : M unit :=
  modify (fun s =>
    set_world (mkWorld (<[j := job]> (jobs (world s))) (ext (world s))) s).

(** ** Constants *)

Definition RrJobs : string := "rr_jobs".
Definition PluginName : string := "jobs".
Definition pipelines_ : string := "pipelines".

(** [fmt.Sprintf("%s.%s.%s", a, b, c)] *)
Definition Sprintf3 (a b c : string) : string :=
  a +:+ "." +:+ b +:+ "." +:+ c.

(** ** Push *)

Definition Push (j : ptr) : M unit :=
  let op := "jobs_plugin_push" in
  job <- deref j ;;
  (* get the pipeline for the job *)
  pipe <- gets (fun s => pipelines s !! structs.Pipeline (structs.Options job)) ;;
  match pipe with
  | None =>
      throw (E op (Errorf ("no such pipeline, requested: "
                           +:+ structs.Pipeline (structs.Options job))))
  | Some ppl =>
      d <- gets (fun s => consumers s !! pipeline.Name ppl) ;;
      match d with
      | None =>
          throw (E op (Errorf ("consumer not registered for the requested driver: "
                               +:+ pipeline.Driver ppl)))
      | Some d =>
          (* if job has no priority, inherit it from the pipeline *)
          (if (structs.Priority (structs.Options job) =? 0)%Z
           then store j (structs.set_Priority (pipeline.Priority ppl) job)
           else ret tt) ;;
          err <- call_Push d j ;;
          match err with
          | Some err => throw (E op err)
          | None => ret tt
          end
      end
  end.

Fixpoint PushBatch (j : list ptr) : M unit :=
  let op := "jobs_plugin_push" in
  match j with
  | [] => ret tt
  | ji :: rest =>
      job <- deref ji ;;
      pipe <- gets (fun s => pipelines s !! structs.Pipeline (structs.Options job)) ;;
      match pipe with
      | None =>
          throw (E op (Errorf ("no such pipeline, requested: "
                               +:+ structs.Pipeline (structs.Options job))))
      | Some ppl =>
          d <- gets (fun s => consumers s !! pipeline.Name ppl) ;;
          match d with
          | None =>
              throw (E op (Errorf ("consumer not registered for the requested driver: "
                                   +:+ pipeline.Driver ppl)))
          | Some d =>
              (if (structs.Priority (structs.Options job) =? 0)%Z
               then store ji (structs.set_Priority (pipeline.Priority ppl) job)
               else ret tt) ;;
              err <- call_Push d ji ;;
              match err with
              | Some err => throw (E op err)
              | None => PushBatch rest
              end
          end
      end
  end.

(** ** Pause and Resume *)

(** The type assertion of [pipe] to a pipeline pointer: it panics on the
    nil interface that [Load] returns for a missing key. *)
Definition assert_Pipeline (pipe : option Pipeline) : M Pipeline :=
  match pipe with
  | Some ppl => ret ppl
  | None => panic "interface conversion: interface {} is nil, not *pipeline.Pipeline"
  end.

Fixpoint Pause (pipelines0 : list string) : M unit :=
  match pipelines0 with
  | [] => ret tt
  | name :: rest =>
      pipe <- gets (fun s => pipelines s !! name) ;;
      (match pipe with
       | None => log Error "no such pipeline" [("requested", VStr name)]
       | Some _ => ret tt
       end) ;;
      ppl <- assert_Pipeline pipe ;;
      d <- gets (fun s => consumers s !! pipeline.Name ppl) ;;
      match d with
      | None =>
          log Warn "driver for the pipeline not found" [("pipeline", VStr name)] ;;
          ret tt
      | Some d =>
          (* redirect call to the underlying driver *)
          call (CallPause d (pipeline.Name ppl)) (fun w => (tt, cPause d (pipeline.Name ppl) w)) ;;
          Pause rest
      end
  end.

Fixpoint Resume (pipelines0 : list string) : M unit :=
  match pipelines0 with
  | [] => ret tt
  | name :: rest =>
      pipe <- gets (fun s => pipelines s !! name) ;;
      (match pipe with
       | None => log Error "no such pipeline" [("requested", VStr name)]
       | Some _ => ret tt
       end) ;;
      ppl <- assert_Pipeline pipe ;;
      d <- gets (fun s => consumers s !! pipeline.Name ppl) ;;
      match d with
      | None =>
          log Warn "driver for the pipeline not found" [("pipeline", VStr name)] ;;
          ret tt
      | Some d =>
          (* redirect call to the underlying driver *)
          call (CallResume d (pipeline.Name ppl)) (fun w => (tt, cResume d (pipeline.Name ppl) w)) ;;
          Resume rest
      end
  end.

(** ** Declaring and destroying pipelines, List *)

(** The method of the plugin that declares a pipeline; the underscore keeps
    its name apart from the vernacular keyword. *)

Definition Declare_ (pipe : Pipeline) : M unit :=
  let op := "jobs_plugin_declare" in
  (* driver for the pipeline (ie amqp, ephemeral, etc) *)
  let dr := pipeline.Driver pipe in
  if decide (dr = "")
  then throw (E op (Errorf ("no associated driver with the pipeline, pipeline name: "
                            +:+ pipeline.Name pipe)))
  else
    c <- gets (fun s => jobConstructors s !! dr) ;;
    (match c with
     | Some c =>
         (* init the driver from pipeline *)
         r <- call (CallFromPipeline c pipe) (FromPipeline c pipe) ;;
         match r with
         | inr err => throw (E op err)
         | inl initializedDriver =>
             (* add driver to the set of the consumers *)
             modify (set_consumers (<[pipeline.Name pipe := initializedDriver]>)) ;;
             (* register pipeline for the initialized driver *)
             err <- call (CallRegister initializedDriver pipe) (cRegister initializedDriver pipe) ;;
             match err with
             | Some _ =>
                 throw (E op (Errorf ("pipe register failed for the driver: "
                                      +:+ pipeline.Driver pipe
                                      +:+ " with pipe name: "
                                      +:+ pipeline.Name pipe)))
             | None =>
                 (* if pipeline initialized to be consumed, call Run on it *)
                 ok <- gets (fun s => bool_decide (pipeline.Name pipe ∈ consume s)) ;;
                 if (ok : bool)
                 then
                   err <- call (CallRun initializedDriver pipe) (cRun initializedDriver pipe) ;;
                   match err with
                   | Some err => throw (E op err)
                   | None => ret tt
                   end
                 else ret tt
             end
         end
     | None => ret tt
     end) ;;
    modify (set_pipelines (<[pipeline.Name pipe := pipe]>)).

(** Destroy pipeline and release all associated resources. *)
Definition Destroy (pp : string) : M unit :=
  let op := "jobs_plugin_destroy" in
  pipe <- gets (fun s => pipelines s !! pp) ;;
  match pipe with
  | None => throw (E op (Errorf ("no such pipeline, requested: " +:+ pp)))
  | Some ppl =>
      d <- gets (fun s => consumers s !! pipeline.Name ppl) ;;
      match d with
      | None =>
          throw (E op (Errorf ("consumer not registered for the requested driver: "
                               +:+ pipeline.Driver ppl)))
      | Some d =>
          (* delete consumer *)
          modify (set_consumers (delete (pipeline.Name ppl))) ;;
          modify (set_pipelines (delete pp)) ;;
          err <- call (CallStop d) (cStop d) ;;
          match err with
          | Some err => throw err
          | None => ret tt
          end
      end
  end.

(** The entries [sync.Map.Range] hands to its callback; Go leaves their
    order open, the model takes the one of [map_to_list]. *)
Definition Range_entries (s : Plugin) : list (string * Pipeline) :=
  map_to_list (pipelines s).

Definition List : M (list string) :=
  gets (fun s => (Range_entries s).*1).

(** ** Init and the collection of driver constructors *)

(** Modelled from the spec: the declaration of [Config] is not part of this
    file; of the configuration surface the plugin reads the pipeline
    definitions, the initial consume-set and the poller count. *)
Record Config : Type := mkConfig {
  Pipelines : gmap string Pipeline;
  Consume : list string;
  NumPollers : nat;
}.

(** The zero value of the struct, in a given world. *)
Definition zero (w : World Ext) : Plugin :=
  mkPlugin ∅ ∅ ∅ ∅ None 0 0 [] 0 w [].

(** [config.Configurer], as far as [Init] uses it: [Has(name)] and the
    outcome of [UnmarshalKey(name, &p.cfg)], the decoded section or an
    error. *)
Record Configurer : Type := mkConfigurer {
  Has : string -> bool;
  UnmarshalKey : string -> Config + error;
}.

(** The method [InitDefaults] of [Config] belongs to the declaration of
    [Config], which is not part of this file: it is a parameter. *)
Class ConfigDefaults : Type := {
  InitDefaults : Config -> Config;
}.

Context `{CD : ConfigDefaults}.

(** [Init] replaces the constructor table, the consumers, the consume-set
    and the stop channel by fresh ones and stores the configured pipelines
    over those the registry holds.  What a failing [UnmarshalKey] may have
    written into [p.cfg] before it returned is not modelled. *)
Definition Init (cfg : Configurer) : M unit :=
  let op := "jobs_plugin_init" in
  if negb (Has cfg PluginName)
  then throw (E op Disabled)
  else
    match UnmarshalKey cfg PluginName with
    | inr err => throw (E op err)
    | inl c =>
        let c := InitDefaults c in
        modify (fun s =>
          mkPlugin ∅ ∅
            (* initial set of pipelines *)
            (Pipelines c ∪ pipelines s)
            (list_to_set (Consume c))
            (workersPool s) (NumPollers c) 0 (errCh s) (pollers s)
            (world s) (trace s))
    end.

Definition CollectMQBrokers (name : string) (c : Constructor) : M unit :=
  modify (set_jobConstructors (<[name := c]>)).

(** ** Serve *)

(** [errCh <- err] on the channel of capacity 1 made by [Serve]. *)
Definition send_errCh (err : error) : M unit :=
  fun s =>
    if decide (length (errCh s) < 1)%nat
    then (Ret tt, set_errCh (errCh s ++ [err]) s)
    else (Block, s).

(** The callback of [p.pipelines.Range] in [Serve]; its result tells
    [Range] whether to go on. *)
Definition serve_pipe (entry : string * Pipeline) : M bool :=
  let op := "jobs_plugin_serve" in
  (* pipeline name (ie test-local, sqs-aws, etc) *)
  let name := entry.1 in
  (* pipeline associated with the name *)
  let pipe := entry.2 in
  (* driver for the pipeline (ie amqp, ephemeral, etc) *)
  let dr := pipeline.Driver pipe in
  c <- gets (fun s => jobConstructors s !! dr) ;;
  match c with
  | Some c =>
      (* config key for the particular sub-driver jobs.pipelines.test-local *)
      let configKey := Sprintf3 PluginName pipelines_ name in
      (* init the driver *)
      r <- call (CallJobsConstruct c configKey) (JobsConstruct c configKey) ;;
      match r with
      | inr err => send_errCh (E op err) ;; ret false
      | inl initializedDriver =>
          (* add driver to the set of the consumers *)
          modify (set_consumers (<[name := initializedDriver]>)) ;;
          (* register pipeline for the initialized driver *)
          err <- call (CallRegister initializedDriver pipe) (cRegister initializedDriver pipe) ;;
          match err with
          | Some _ =>
              send_errCh (E op (Errorf ("pipe register failed for the driver: "
                                        +:+ pipeline.Driver pipe
                                        +:+ " with pipe name: "
                                        +:+ pipeline.Name pipe))) ;;
              ret false
          | None =>
              (* if pipeline initialized to be consumed, call Run on it *)
              ok <- gets (fun s => bool_decide (name ∈ consume s)) ;;
              if (ok : bool)
              then
                err <- call (CallRun initializedDriver pipe) (cRun initializedDriver pipe) ;;
                match err with
                | Some err => send_errCh (E op err) ;; ret false
                | None =>
                    push_event EventPipeRun (pipeline.Name pipe) (pipeline.Driver pipe) ;;
                    ret true
                end
              else ret true
          end
      end
  | None =>
      push_event EventDriverReady (pipeline.Name pipe) (pipeline.Driver pipe) ;;
      ret true
  end.

(** [sync.Map.Range]: the callback is called entry by entry until it
    returns false. *)
Fixpoint Range (f : string * Pipeline -> M bool)
    (entries : list (string * Pipeline)) : M unit :=
  match entries with
  | [] => ret tt
  | entry :: rest =>
      continue <- f entry ;;
      if (continue : bool) then Range f rest else ret tt
  end.

(** [Serve] returns the error channel: the result is [Ret tt] and the
    channel is the field [errCh] of the state. *)
Definition Serve : M unit :=
  modify (set_errCh []) ;;
  (* register initial pipelines *)
  entries <- gets Range_entries ;;
  Range serve_pipe entries ;;
  r <- call CallNewWorkerPool NewWorkerPool ;;
  match r with
  | inr err =>
      modify (set_workersPool None) ;;
      send_errCh err ;;
      ret tt
  | inl wp =>
      modify (set_workersPool (Some wp)) ;;
      (* start listening *)
      n <- gets numPollers ;;
      modify (set_pollers n)
  end.

(** ** The poller loop *)

(** What a poller does with a job it got from the queue, up to the point
    where the loop goes round again. *)
Definition dispatch (job : Item) : M unit :=
  r <- call (CallContext job) (iContext job) ;;
  match r with
  | inr err =>
      errNack <- call (CallNack job) (iNack job) ;;
      (match errNack with
       | Some errNack => log Error "negatively acknowledge failed" [("error", VErr errNack)]
       | None => ret tt
       end) ;;
      log Error "job marshal context" [("error", VErr err)]
  | inl ctx =>
      let exec := payload.mk ctx (iBody job) in
      (* protect from the pool reset *)
      modify (record RLock) ;;
      wp <- gets workersPool ;;
      match wp with
      | None => panic "invalid memory address or nil pointer dereference"
      | Some wp =>
          err <- call (CallExec exec) (pExec wp exec) ;;
          match err with
          | Some err =>
              errNack <- call (CallNack job) (iNack job) ;;
              (match errNack with
               | Some errNack => log Error "negatively acknowledge failed" [("error", VErr errNack)]
               | None => ret tt
               end) ;;
              modify (record RUnlock) ;;
              log Error "job execute" [("error", VErr err)]
          | None =>
              modify (record RUnlock) ;;
              errAck <- call (CallAck job) (iAck job) ;;
              match errAck with
              | Some errAck => log Error "acknowledge failed" [("error", VErr errAck)]
              | None => ret tt
              end
          end
      end
  end.

(** [p.queue.ExtractMin()]: the caller waits while the queue is empty. *)
Definition extract_min : M Item :=
  fun s =>
    match ExtractMin (world s) with
    | Some (job, w) => (Ret job, set_world w s)
    | None => (Block, s)
    end.

(** One round of the [for] loop of a poller: [false] when the poller has
    taken a stop signal and returns. *)
Definition poller_round : M bool :=
  n <- gets stopCh ;;
  match n with
  | S n' =>
      modify (set_stopCh n') ;;
      log Debug "------> job poller stopped <------" [] ;;
      ret false
  | O =>
      (* get data JOB from the queue *)
      job <- extract_min ;;
      dispatch job ;;
      ret true
  end.

(** The loop, for at most [fuel] rounds: [true] when the poller is still
    running after them. *)
Fixpoint poller (fuel : nat) : M bool :=
  match fuel with
  | O => ret true
  | S fuel' =>
      continue <- poller_round ;;
      if (continue : bool) then poller fuel' else ret false
  end.

End Plugin.

Arguments Plugin {B}.
Arguments Action {B}.

(** ** A small backend for running the plugin

    Constructors and consumers are numbers that select a behaviour; a
    consumer pushes by appending the job address to the queue, the queue
    hands out prepared items. *)
Module Sample.

Record item : Type := mkItem {
  it_id : string;
  it_context : string + error;
  it_body : string;
  it_ack : option error;
  it_nack : option error;
}.

Record brokers : Type := mkExt {
  pushed : list ptr;       (* jobs the consumers put in the queue *)
  ready : list item;       (* items the pollers can extract *)
  paused : list string;    (* pipelines paused and not resumed *)
  acked : list string;
  nacked : list string;
}.

Definition on_ext (f : brokers -> brokers) (w : World brokers) : World brokers :=
  mkWorld (jobs w) (f (ext w)).

(** Constructor 0 fails; constructor [n] makes consumer [n]. *)
Definition construct (c : nat) (w : World brokers) : (nat + error) * World brokers :=
  match c with
  | O => (inr (External 1), w)
  | _ => (inl c, w)
  end.

(** Consumer 2 fails in Register, 3 in Run, 4 in Stop, 5 in Push. *)
Definition fails_at (n d : nat) (code : nat) (w : World brokers)
    : option error * World brokers :=
  if Nat.eqb d n then (Some (External code), w) else (None, w).

Definition push (d : nat) (j : ptr) (w : World brokers) : option error * World brokers :=
  if Nat.eqb d 5 then (Some (External 5), w)
  else (None, on_ext (fun x => mkExt (pushed x ++ [j]) (ready x) (paused x)
                                 (acked x) (nacked x)) w).

Definition pause (name : string) (w : World brokers) : World brokers :=
  on_ext (fun x => mkExt (pushed x) (ready x) (paused x ++ [name])
                     (acked x) (nacked x)) w.

Definition resume (name : string) (w : World brokers) : World brokers :=
  on_ext (fun x => mkExt (pushed x) (ready x)
                     (filter (fun n => n ≠ name) (paused x))
                     (acked x) (nacked x)) w.

Definition extract (w : World brokers) : option (item * World brokers) :=
  match ready (ext w) with
  | [] => None
  | it :: rest =>
      Some (it, on_ext (fun x => mkExt (pushed x) rest (paused x)
                                   (acked x) (nacked x)) w)
  end.

Definition ack (it : item) (w : World brokers) : option error * World brokers :=
  (it_ack it, on_ext (fun x => mkExt (pushed x) (ready x) (paused x)
                                 (acked x ++ [it_id it]) (nacked x)) w).

Definition nack (it : item) (w : World brokers) : option error * World brokers :=
  (it_nack it, on_ext (fun x => mkExt (pushed x) (ready x) (paused x)
                                  (acked x) (nacked x ++ [it_id it])) w).

(** Pool 0 cannot be made; a pool fails on the body "bad". *)
Definition exec (p : nat) (pl : Payload) (w : World brokers) : option error * World brokers :=
  if String.eqb (payload.Body pl) "bad" then (Some (External 7), w) else (None, w).

#[export] Instance backend : Backend := {|
  Ext := brokers;
  Constructor := nat;
  Consumer := nat;
  Item := item;
  Pool := nat;
  JobsConstruct c _ := construct c;
  FromPipeline c _ := construct c;
  cRegister d _ := fails_at 2 d 2;
  cRun d _ := fails_at 3 d 3;
  cStop d := fails_at 4 d 4;
  cPause _ := pause;
  cResume _ := resume;
  cPush := push;
  ExtractMin := extract;
  iContext it w := (it_context it, w);
  iBody := it_body;
  iAck := ack;
  iNack := nack;
  pExec := exec;
  NewWorkerPool w := (inl 1%nat, w);
|}.

(** The sample configuration needs no defaults. *)
#[export] Instance defaults : ConfigDefaults := {|
  InitDefaults c := c;
|}.

(** A configurer that has the section of the plugin and decodes it to [c]. *)
Definition configurer (c : Config) : Configurer :=
  mkConfigurer (fun name => String.eqb name "jobs") (fun _ => inl c).

Definition w0 : World brokers := mkWorld ∅ (mkExt [] [] [] [] []).

Definition job (pipe : string) (prio : Z) : Job :=
  structs.mkJob "id" "body" (structs.mkOptions prio pipe 0).

Definition run {A} (m : M A) (s : Plugin) : Plugin := (m s).2.

(** Four job objects: two for "p1" (one without priority), one for a
    pipeline nobody declared, one for a pipeline without consumer. *)
Definition w1 : World brokers :=
  mkWorld (<[1%nat := job "p1" 0]>
           (<[2%nat := job "missing" 3]>
            (<[3%nat := job "p1" 2]>
             (<[4%nat := job "orphan" 1]> ∅))))
          (mkExt [] [] [] [] []).

(** After [Init] without configured pipelines and the collection of the
    driver types: "ephemeral" works, "broken" makes consumers that fail in
    Register, "noctor" cannot construct, "nostop" fails in Stop. *)
Definition booted : Plugin :=
  run (CollectMQBrokers "nostop" 4%nat)
    (run (CollectMQBrokers "noctor" 0%nat)
      (run (CollectMQBrokers "broken" 2%nat)
        (run (CollectMQBrokers "ephemeral" 1%nat)
          (run (Init (configurer (mkConfig ∅ [] 1))) (zero w1))))).

Definition p1 : Pipeline := pipeline.mk "p1" "ephemeral" 7.
Definition p2 : Pipeline := pipeline.mk "p2" "broken" 1.
Definition p3 : Pipeline := pipeline.mk "p3" "nostop" 1.
Definition orphan : Pipeline := pipeline.mk "orphan" "unregistered" 5.

(** "p1" declared with a live consumer, "orphan" declared with a driver
    type that nobody registered. *)
Definition declared : Plugin :=
  run (Declare_ orphan) (run (Declare_ p1) booted).

(** Configured pipelines, for [Serve]: "a" has no driver type registered,
    "b" fails in Register, "c" and "d" would work. *)
Definition configured : Plugin :=
  run (CollectMQBrokers "broken" 2%nat)
    (run (CollectMQBrokers "ephemeral" 1%nat)
      (run (Init (configurer (mkConfig
                          (<["a" := pipeline.mk "a" "unregistered" 1]>
                           (<["b" := pipeline.mk "b" "broken" 1]>
                            (<["c" := pipeline.mk "c" "ephemeral" 1]>
                             (<["d" := pipeline.mk "d" "ephemeral" 1]> ∅))))
                          ["c"] 2)))
           (zero w0))).

(** A poller's view: one job in the queue whose execution fails and whose
    Nack fails too, then one that goes through. *)
Definition bad_item : item :=
  mkItem "j1" (inl "ctx") "bad" None (Some (External 9)).
Definition good_item : item :=
  mkItem "j2" (inl "ctx") "ok" None None.

(** A plugin whose initial consume-set holds "p4" and whose driver type
    "norun" makes consumers that fail in Run. *)
Definition booted_consuming : Plugin :=
  run (CollectMQBrokers "norun" 3%nat)
    (run (Init (configurer (mkConfig ∅ ["p4"] 1))) (zero w1)).

Definition p4 : Pipeline := pipeline.mk "p4" "norun" 1.

(** "p3" declared on top; its consumer fails in Stop. *)
Definition declared3 : Plugin := run (Declare_ p3) declared.

(** "p1" paused. *)
Definition paused1 : Plugin := run (Pause ["p1"]) declared.

Definition polling : Plugin :=
  mkPlugin ∅ ∅ ∅ ∅ (Some 1%nat) 1 0 [] 1
    (mkWorld ∅ (mkExt [] [bad_item; good_item] [] [] [])) [].

End Sample.


(** ** The spec's names for the errors of the caller-facing operations *)

Definition NotFound (e : error) : bool :=
  match e with
  | E _ (Errorf msg) => String.prefix "no such pipeline" msg
  | _ => false
  end.

Definition DriverUnregistered (e : error) : bool :=
  match e with
  | E _ (Errorf msg) => String.prefix "consumer not registered" msg
  | _ => false
  end.

Section Notions.
Context `{B : Backend}.

(** The state in which the consumer of [j]'s pipeline is called: the job
    object carries the pipeline's priority when it had none. *)
Definition at_delegation (ppl : Pipeline) (j : ptr) (job : Job) (s : Plugin) : Plugin :=
  if (structs.Priority (structs.Options job) =? 0)%Z
  then set_world (mkWorld (<[j := structs.set_Priority (pipeline.Priority ppl) job]>
                             (jobs (world s)))
                          (ext (world s))) s
  else s.

(** The job as a push hands it to the consumer: with the priority of the
    pipeline when it has none of its own. *)
Definition resolved (ppl : Pipeline) (job : Job) : Job :=
  if (structs.Priority (structs.Options job) =? 0)%Z
  then structs.set_Priority (pipeline.Priority ppl) job
  else job.

(** What the push of the job object [job] at address [j] to the consumer [d]
    of its pipeline [ppl] comes to: the resolved job is the object at [j]
    when the consumer's Push runs, the world is the one that Push leaves,
    and its error, if any, comes back under the name of the operation. *)
Definition delegated (ppl : Pipeline) (d : Consumer) (j : ptr) (job : Job)
    (s : Plugin) : Res unit * Plugin :=
  let w1 := mkWorld (<[j := resolved ppl job]> (jobs (world s))) (ext (world s)) in
  (match (cPush d j w1).1 with
   | Some err => Fail (E "jobs_plugin_push" err)
   | None => Ret tt
   end,
   set_world (cPush d j w1).2
     (record (CallPush d j (Some (resolved ppl job))) s)).

(** The address a recorded call of a consumer's Push was made with. *)
Definition pushed_job (a : Action) : option ptr :=
  match a with
  | CallPush _ j _ => Some j
  | _ => None
  end.

(** The log record a poller writes when an acknowledgement has failed. *)
Definition log_failure (msg : string) (r : option error) : list Action :=
  match r with
  | Some e => [Log Error msg [("error", VErr e)]]
  | None => []
  end.

(** The plugin after the actions [acts] have been recorded in order. *)
Definition recorded (acts : list Action) (s : Plugin) : Plugin :=
  foldl (fun t a => record a t) s acts.

(** The registry invariant of the spec: a consumer is stored only under a
    name that is in the pipeline registry; names are the pipelines' own. *)
Definition consumers_have_pipelines (s : Plugin) : Prop :=
  forall name, is_Some (consumers s !! name) -> is_Some (pipelines s !! name).

Definition keyed_by_name (s : Plugin) : Prop :=
  forall key pipe, pipelines s !! key = Some pipe -> pipeline.Name pipe = key.

(** The acknowledgements a poller attempts: calls of Ack or Nack. *)
Definition is_ack_attempt (a : Action) : bool :=
  match a with
  | CallAck _ | CallNack _ => true
  | _ => false
  end.

(** The callback of the initial walk returned true for every entry of
    [entries], one after the other from [s]; the state they leave. *)
Fixpoint all_continue (f : string * Pipeline -> M bool)
    (entries : list (string * Pipeline)) (s : Plugin) : option Plugin :=
  match entries with
  | [] => Some s
  | entry :: rest =>
      match f entry s with
      | (Ret true, s') => all_continue f rest s'
      | _ => None
      end
  end.


End Notions.

(** * The rest of the plugin: Stop, Reset, and sequences of calls *)

(** [pool.Pool.Destroy], which [Reset] calls on the pool it replaces. *)
Class PoolControl `{B : Backend} : Type := {
  pDestroy : Pool -> World Ext -> World Ext;
}.

Section Lifecycle.
Context `{PC : PoolControl}.

Notation "x <- m ;; k" := (bind m (fun x => k))
  (at level 100, m at next level, right associativity).
Notation "m ;; k" := (bind m (fun _ => k))
  (at level 100, right associativity).

(** ** Stop *)






(** ** Reset *)

(** The write lock of [Reset] has nobody to wait for in a sequential run and
    is left out; the method of the nil pool panics; as in [Serve], a server
    that returns an error returns no pool with it. *)
Definition Reset : M unit :=
  let op := "jobs_plugin_reset" in
  log Info "JOBS plugin got restart request. Restarting..." [] ;;
  wp <- gets workersPool ;;
  match wp with
  | None => panic "invalid memory address or nil pointer dereference"
  | Some wp =>
      modify (fun s => set_world (pDestroy wp (world s)) s) ;;
      modify (set_workersPool None) ;;
      r <- call CallNewWorkerPool NewWorkerPool ;;
      match r with
      | inr err =>
          modify (set_workersPool None) ;;
          throw (E op err)
      | inl wp' =>
          modify (set_workersPool (Some wp')) ;;
          log Info "JOBS workers pool successfully restarted" [] ;;
          ret tt
      end
  end.

(** ** Sequences of calls *)

(** [f] on the elements of [l] in order, up to the first that does not
    return nil. *)
Fixpoint each {A} (f : A -> M unit) (l : list A) : M unit :=
  match l with
  | [] => ret tt
  | x :: rest => f x ;; each f rest
  end.

(** The operations the plugin offers its callers. *)
Inductive Op : Type :=
| OpPush (j : ptr)
| OpPushBatch (j : list ptr)
| OpPause (pipelines0 : list string)
| OpResume (pipelines0 : list string)
| OpDeclare (pipe : Pipeline)
| OpDestroy (pp : string)
| OpList.

Definition run_op (o : Op) : M unit :=
  match o with
  | OpPush j => Push j
  | OpPushBatch j => PushBatch j
  | OpPause names => Pause names
  | OpResume names => Resume names
  | OpDeclare pipe => Declare_ pipe
  | OpDestroy pp => Destroy pp
  | OpList => List ;; ret tt
  end.

(** The state after a sequence of calls; errors are returned to the caller
    and the next call follows, a panic ends the run. *)
Fixpoint run_ops (ops : list Op) (s : Plugin) : Plugin :=
  match ops with
  | [] => s
  | o :: rest =>
      match run_op o s with
      | (Ret _, s') => run_ops rest s'
      | (Fail _, s') => run_ops rest s'
      | (_, s') => s'
      end
  end.

(** Every declaration of the sequence returns nil when its turn comes. *)
Fixpoint declarations_succeed (ops : list Op) (s : Plugin) : Prop :=
  match ops with
  | [] => True
  | o :: rest =>
      (forall pipe, o = OpDeclare pipe -> (run_op o s).1 = Ret tt) /\
      match run_op o s with
      | (Ret _, s') => declarations_succeed rest s'
      | (Fail _, s') => declarations_succeed rest s'
      | _ => True
      end
  end.

(** The registries and the consume-set are those of [s]. *)
Definition same_registries (s s' : Plugin) : Prop :=
  jobConstructors s' = jobConstructors s /\
  consumers s' = consumers s /\
  pipelines s' = pipelines s /\
  consume s' = consume s.





End Lifecycle.

(** The sample backend destroys a pool without a trace. *)
Module SampleMore.
Import Sample.

#[export] Instance pool_control : PoolControl := {|
  pDestroy _ w := w;
|}.

(** A backend like the sample one whose server cannot make a worker pool. *)
Definition poolless : Backend := {|
  Ext := brokers;
  Constructor := nat;
  Consumer := nat;
  Item := item;
  Pool := nat;
  JobsConstruct c _ := construct c;
  FromPipeline c _ := construct c;
  cRegister d _ := fails_at 2 d 2;
  cRun d _ := fails_at 3 d 3;
  cStop d := fails_at 4 d 4;
  cPause _ := pause;
  cResume _ := resume;
  cPush := push;
  ExtractMin := extract;
  iContext it w := (it_context it, w);
  iBody := it_body;
  iAck := ack;
  iNack := nack;
  pExec := exec;
  NewWorkerPool w := (inr (External 8), w);
|}.

Definition poolless_control : @PoolControl poolless := {|
  pDestroy _ w := w;
|}.

(** Two configured pipelines that the walk of [Serve] sets up. *)
Definition clean : @Plugin backend :=
  run (CollectMQBrokers "ephemeral" 1%nat)
    (run (Init (configurer (mkConfig
                        (<["c" := pipeline.mk "c" "ephemeral" 1]>
                         (<["d" := pipeline.mk "d" "ephemeral" 2]> ∅))
                        ["c"] 2)))
         (zero w1)).

(** One configured pipeline under the server that cannot make a pool. *)
Definition clean_poolless : @Plugin poolless :=
  @mkPlugin poolless
    (<["ephemeral" := 1%nat]> ∅) ∅
    (<["c" := pipeline.mk "c" "ephemeral" 1]> ∅) {["c"]}
    None 2 0 [] 0 w1 [].

(** A served plugin under the server that cannot make a second pool. *)
Definition served_poolless : @Plugin poolless :=
  @mkPlugin poolless ∅ ∅ ∅ ∅ (Some 1%nat) 1 0 [] 1
    (mkWorld ∅ (mkExt [] [good_item] [] [] [])) [].

(** That plugin after a [Reset] that could not make the new pool. *)
Definition pool_lost : @Plugin poolless :=
  (@Reset poolless poolless_control served_poolless).2.

(** One configured pipeline whose consumer fails in Register, under the
    server that cannot make a pool. *)
Definition broken_poolless : @Plugin poolless :=
  @mkPlugin poolless
    (<["broken" := 2%nat]> ∅) ∅
    (<["b" := pipeline.mk "b" "broken" 1]> ∅) ∅
    None 2 0 [] 0 w0 [].

End SampleMore.

(** * Properties *)

Section Properties.
Context `{B : Backend}.

Implicit Types (s : Plugin) (j : ptr) (job : Job) (ppl pipe : Pipeline).

(** *** The monad *)

Lemma bind_assoc {A C D} (m : M A) (k : A -> M C) (h : C -> M D) s :
  bind (bind m k) h s = bind m (fun a => bind (k a) h) s.
Proof. unfold bind. destruct (m s) as [[a| | |] s']; reflexivity. Qed.

Lemma bind_ret_l {A C} (a : A) (k : A -> M C) s : bind (ret a) k s = k a s.
Proof. reflexivity. Qed.

Lemma bind_Ret {A C} (m : M A) (k : A -> M C) s a s' :
  m s = (Ret a, s') -> bind m k s = k a s'.
Proof. unfold bind. intros ->. reflexivity. Qed.

Lemma bind_Fail {A C} (m : M A) (k : A -> M C) s e s' :
  m s = (Fail e, s') -> bind m k s = (Fail e, s').
Proof. unfold bind. intros ->. reflexivity. Qed.

(** *** Push and PushBatch *)

(** The body of the loop of [PushBatch] is the body of [Push]. *)
Lemma PushBatch_cons j rest s :
  PushBatch (j :: rest) s = bind (Push j) (fun _ => PushBatch rest) s.
Proof.
  cbn [PushBatch]. unfold Push, bind, deref, gets. cbv zeta.
  destruct (jobs (world s) !! j) as [job|]; [|reflexivity].
  destruct (pipelines s !! _) as [ppl|]; [|reflexivity].
  destruct (consumers s !! _) as [d|]; [|reflexivity].
  destruct (if (_ =? _)%Z then _ else _) as [[[]| | |] s1]; try reflexivity.
  destruct (call_Push d j s1) as [[[err|]| | |] s2]; reflexivity.
Qed.

Lemma PushBatch_app pre post s :
  PushBatch (pre ++ post) s = bind (PushBatch pre) (fun _ => PushBatch post) s.
Proof.
  revert s. induction pre as [|j pre IH]; intros s; [reflexivity|].
  rewrite <- app_comm_cons, PushBatch_cons.
  unfold bind at 2. rewrite PushBatch_cons. unfold bind at 1 2.
  destruct (Push j s) as [[[]| | |] s1]; try reflexivity.
  apply IH.
Qed.

Lemma Push_found j job ppl d s :
  jobs (world s) !! j = Some job ->
  pipelines s !! structs.Pipeline (structs.Options job) = Some ppl ->
  consumers s !! pipeline.Name ppl = Some d ->
  let s1 := at_delegation ppl j job s in
  Push j s =
    (match (cPush d j (world s1)).1 with
     | Some err => Fail (E "jobs_plugin_push" err)
     | None => Ret tt
     end,
     set_world (cPush d j (world s1)).2
       (record (CallPush d j (jobs (world s1) !! j)) s1)).
Proof.
  intros Hj Hp Hd s1. subst s1.
  unfold Push, bind, deref, gets, at_delegation. cbv zeta.
  rewrite Hj, Hp, Hd.
  destruct (_ =? _)%Z; unfold store, modify, ret, call_Push, call;
    destruct (cPush d j _) as [[err|] w]; reflexivity.
Qed.


Lemma Push_trace j s : exists more, trace (Push j s).2 = trace s ++ more.
Proof.
  unfold Push, bind, deref, gets. cbv zeta.
  destruct (jobs (world s) !! j) as [job|]; [|by exists []; rewrite app_nil_r].
  destruct (pipelines s !! _) as [ppl|]; [|by exists []; rewrite app_nil_r].
  destruct (consumers s !! _) as [d|]; [|by exists []; rewrite app_nil_r].
  destruct (_ =? _)%Z; unfold store, modify, ret, call_Push, call;
    destruct (cPush d j _) as [[err|] w]; cbn; eauto.
Qed.

Lemma PushBatch_trace js s : exists more, trace (PushBatch js s).2 = trace s ++ more.
Proof.
  revert s. induction js as [|j js IH]; intros s.
  - exists []. by rewrite app_nil_r.
  - rewrite PushBatch_cons. unfold bind.
    destruct (Push_trace j s) as [m1 H1].
    destruct (Push j s) as [[[]| | |] s1]; cbn in *; eauto.
    destruct (IH s1) as [m2 H2]. exists (m1 ++ m2).
    by rewrite H2, H1, app_assoc.
Qed.

(** With both lookups successful, [Push] is the delegation to the
    consumer. *)
Lemma Push_delegated j job ppl d s :
  jobs (world s) !! j = Some job ->
  pipelines s !! structs.Pipeline (structs.Options job) = Some ppl ->
  consumers s !! pipeline.Name ppl = Some d ->
  Push j s = delegated ppl d j job s.
Proof.
  intros Hj Hp Hd. rewrite (Push_found j job ppl d s Hj Hp Hd). cbv zeta.
  unfold delegated, at_delegation, resolved.
  destruct (_ =? _)%Z; [cbn; by rewrite lookup_insert_eq|].
  assert (Hw : mkWorld (<[j := job]> (jobs (world s))) (ext (world s)) = world s).
  { rewrite (insert_id _ _ _ Hj). by destruct (world s). }
  rewrite Hw, Hj. reflexivity.
Qed.

Lemma PushBatch_each js s : PushBatch js s = each Push js s.
Proof.
  revert s. induction js as [|j js IH]; intros s; [reflexivity|].
  rewrite PushBatch_cons. cbn [each]. unfold bind.
  destruct (Push j s) as [[[]| | |] s1]; try reflexivity. apply IH.
Qed.

Lemma Push_Ret_trace j s s' :
  Push j s = (Ret tt, s') ->
  exists d v, trace s' = trace s ++ [CallPush d j v].
Proof.
  unfold Push, bind, deref, gets. cbv zeta.
  destruct (jobs (world s) !! j) as [job|]; [|done].
  destruct (pipelines s !! _) as [ppl|]; [|done].
  destruct (consumers s !! _) as [d|]; [|done].
  destruct (_ =? _)%Z; unfold store, modify, ret, call_Push, call;
    destruct (cPush d j _) as [[err|] w]; intros [= <-]; cbn; eauto.
Qed.

Lemma each_Push_trace js s s1 :
  each Push js s = (Ret tt, s1) ->
  exists acts,
    trace s1 = trace s ++ acts /\
    omap pushed_job acts = js /\
    length acts = length js.
Proof.
  revert s. induction js as [|j js IH]; intros s; cbn [each].
  - intros [= <-]. exists []. by rewrite app_nil_r.
  - unfold bind. destruct (Push j s) as [[[]| | |] s'] eqn:HP; try done.
    intros Hrest. destruct (Push_Ret_trace _ _ _ HP) as (d & v & Ht).
    destruct (IH _ Hrest) as (acts & Ht' & Ho & Hl).
    exists (CallPush d j v :: acts). split; [|split].
    + rewrite Ht', Ht, <- app_assoc. reflexivity.
    + cbn. by rewrite Ho.
    + cbn. by rewrite Hl.
Qed.

(** C4: a job pushed through [Push] or [PushBatch] to a known pipeline with
    a live consumer is handed to that consumer's Push with the pipeline's
    priority when its own priority is 0, and as it is when its priority is
    not 0.  [Push] is exactly that delegation: the resolved job is the
    object at the job's address in the world the consumer's Push runs on,
    the world afterwards is the one that Push leaves, and its result is
    returned.  [PushBatch] does the same with the job at the head of the
    batch and goes on with the rest only when that push returned nil; as a
    whole it is [Push] applied to the jobs one by one, so the same holds
    for the job at every position it reaches. *)
Theorem priority_resolved_before_delegation j job ppl d s :
  jobs (world s) !! j = Some job ->
  pipelines s !! structs.Pipeline (structs.Options job) = Some ppl ->
  consumers s !! pipeline.Name ppl = Some d ->
  (structs.Priority (structs.Options job) = 0 ->
     resolved ppl job = structs.set_Priority (pipeline.Priority ppl) job /\
     structs.Priority (structs.Options (resolved ppl job)) = pipeline.Priority ppl) /\
  (structs.Priority (structs.Options job) <> 0 -> resolved ppl job = job) /\
  Push j s = delegated ppl d j job s /\
  trace (Push j s).2 = trace s ++ [CallPush d j (Some (resolved ppl job))] /\
  world (Push j s).2 =
    (cPush d j (mkWorld (<[j := resolved ppl job]> (jobs (world s)))
                        (ext (world s)))).2 /\
  (forall rest,
     PushBatch (j :: rest) s =
       match delegated ppl d j job s with
       | (Ret _, s') => PushBatch rest s'
       | failed => failed
       end) /\
  (forall t, PushBatch [] t = (Ret tt, t)) /\
  (forall js t, PushBatch js t = each Push js t) /\
  (forall pre post s0,
     each Push pre s0 = (Ret tt, s) ->
     exists more,
       trace (PushBatch (pre ++ j :: post) s0).2 =
         trace s ++ CallPush d j (Some (resolved ppl job)) :: more).
Proof.
  intros Hj Hp Hd.
  pose proof (Push_delegated j job ppl d s Hj Hp Hd) as HP.
  split; [|split; [|split; [|split; [|split; [|split; [|split; [|split]]]]]]].
  - unfold resolved. intros ->. split; reflexivity.
  - unfold resolved. intros Hne. apply Z.eqb_neq in Hne. by rewrite Hne.
  - exact HP.
  - by rewrite HP.
  - by rewrite HP.
  - intros rest. rewrite PushBatch_cons. unfold bind. rewrite HP.
    unfold delegated. by destruct (cPush d j _) as [[err|] w].
  - reflexivity.
  - apply PushBatch_each.
  - intros pre post s0 Hpre. rewrite <- PushBatch_each in Hpre.
    rewrite PushBatch_app. rewrite (bind_Ret _ _ _ _ _ Hpre).
    rewrite PushBatch_cons. unfold bind. rewrite HP.
    unfold delegated. destruct (cPush d j _) as [[err|] w]; cbn [fst snd].
    + by exists [].
    + match goal with |- context [PushBatch post ?t] =>
        destruct (PushBatch_trace post t) as [m Hm] end.
      exists m. rewrite Hm. cbn. by rewrite <- app_assoc.
Qed.

Lemma Push_lookup_failure_leaves j job s :
  jobs (world s) !! j = Some job ->
  let name := structs.Pipeline (structs.Options job) in
  (pipelines s !! name = None ->
     Push j s =
       (Fail (E "jobs_plugin_push"
                (Errorf ("no such pipeline, requested: " +:+ name))), s)) /\
  (forall ppl,
     pipelines s !! name = Some ppl ->
     consumers s !! pipeline.Name ppl = None ->
     Push j s =
       (Fail (E "jobs_plugin_push"
                (Errorf ("consumer not registered for the requested driver: "
                         +:+ pipeline.Driver ppl))), s)).
Proof.
  intros Hj name. subst name. split.
  - intros Hp. unfold Push, bind, deref, gets. cbv zeta.
    by rewrite Hj, Hp.
  - intros ppl Hp Hd. unfold Push, bind, deref, gets. cbv zeta.
    by rewrite Hj, Hp, Hd.
Qed.

(** C7: [Push] of a job whose pipeline name is not in the pipeline registry
    returns the "no such pipeline" (NotFound) error, and [Push] to a known
    pipeline without a live consumer returns the "consumer not registered"
    (DriverUnregistered) error; in both cases the state after the call is
    the state before it: no consumer was called, the world (priority queue,
    job object) and the registries are as they were. *)
Theorem Push_lookup_failure_changes_nothing j job s :
  jobs (world s) !! j = Some job ->
  let name := structs.Pipeline (structs.Options job) in
  (pipelines s !! name = None ->
     exists e,
       Push j s = (Fail e, s) /\ NotFound e = true /\
       e = E "jobs_plugin_push" (Errorf ("no such pipeline, requested: " +:+ name)))
  /\
  (forall ppl,
     pipelines s !! name = Some ppl ->
     consumers s !! pipeline.Name ppl = None ->
     exists e,
       Push j s = (Fail e, s) /\ DriverUnregistered e = true /\
       e = E "jobs_plugin_push"
             (Errorf ("consumer not registered for the requested driver: "
                      +:+ pipeline.Driver ppl))).
Proof.
  intros Hj name.
  destruct (Push_lookup_failure_leaves j job s Hj) as [Hnf Hun]. split.
  - intros Hp. eexists. split; [by apply Hnf|]. split; reflexivity.
  - intros ppl Hp Hd. eexists. split; [by apply Hun|]. split; reflexivity.
Qed.

(** C10: [Push] and [PushBatch] write the inherited priority into the job
    object behind the caller's pointer.  For a job with priority 0, a known
    pipeline and a live consumer, [Push] runs the consumer's Push on a world
    [w1] in which the object at [j] is the caller's job with
    [Options.Priority] set to the pipeline's priority, every other field of
    it, every other job object and the rest of the world being as before;
    the state after the call has the world that Push leaves and nothing else
    changed but the record of the call, so a consumer that does not write to
    the job store leaves the inherited priority visible at [j].  [PushBatch]
    does exactly this with the job at the head of the batch before it goes
    on, and as a whole is [Push] applied to the jobs one by one on the same
    job store. *)
Theorem Push_writes_priority_in_place j job ppl d s :
  jobs (world s) !! j = Some job ->
  pipelines s !! structs.Pipeline (structs.Options job) = Some ppl ->
  consumers s !! pipeline.Name ppl = Some d ->
  structs.Priority (structs.Options job) = 0 ->
  exists (job' : Job) (w1 : World Ext),
    structs.Priority (structs.Options job') = pipeline.Priority ppl /\
    structs.Pipeline (structs.Options job') = structs.Pipeline (structs.Options job) /\
    structs.Delay (structs.Options job') = structs.Delay (structs.Options job) /\
    structs.Ident job' = structs.Ident job /\
    structs.Payload job' = structs.Payload job /\
    jobs w1 = <[j := job']> (jobs (world s)) /\
    ext w1 = ext (world s) /\
    Push j s =
      (match (cPush d j w1).1 with
       | Some err => Fail (E "jobs_plugin_push" err)
       | None => Ret tt
       end,
       set_world (cPush d j w1).2 (record (CallPush d j (Some job')) s)) /\
    world (Push j s).2 = (cPush d j w1).2 /\
    (jobs (cPush d j w1).2 = jobs w1 ->
       jobs (world (Push j s).2) !! j = Some job' /\
       forall j', j' <> j -> jobs (world (Push j s).2) !! j' = jobs (world s) !! j') /\
    (forall rest,
       PushBatch (j :: rest) s =
         match (cPush d j w1).1 with
         | Some err =>
             (Fail (E "jobs_plugin_push" err),
              set_world (cPush d j w1).2 (record (CallPush d j (Some job')) s))
         | None =>
             PushBatch rest
               (set_world (cPush d j w1).2 (record (CallPush d j (Some job')) s))
         end) /\
    (forall t, PushBatch [] t = (Ret tt, t)) /\
    (forall js t, PushBatch js t = each Push js t) /\
    (forall pre s0,
       each Push pre s0 = (Ret tt, s) ->
       PushBatch (pre ++ [j]) s0 = Push j s).
Proof.
  intros Hj Hp Hd H0.
  pose proof (Push_delegated j job ppl d s Hj Hp Hd) as HP.
  unfold delegated, resolved in HP. rewrite H0 in HP. cbn [Z.eqb] in HP.
  set (job' := structs.set_Priority (pipeline.Priority ppl) job) in *.
  set (w1 := mkWorld (<[j := job']> (jobs (world s))) (ext (world s))) in *.
  assert (HW : world (Push j s).2 = (cPush d j w1).2) by (by rewrite HP).
  exists job', w1. repeat (split; [reflexivity|]).
  split; [exact HP|]. split; [exact HW|]. split; [|split; [|split; [|split]]].
  - intros Hkeep. rewrite HW, Hkeep. split.
    + apply lookup_insert_eq.
    + intros j' Hne. cbn. by apply lookup_insert_ne.
  - intros rest. rewrite PushBatch_cons. unfold bind. rewrite HP.
    by destruct (cPush d j w1) as [[err|] w].
  - reflexivity.
  - apply PushBatch_each.
  - intros pre s0 Hpre. rewrite <- PushBatch_each in Hpre.
    rewrite PushBatch_app, (bind_Ret _ _ _ _ _ Hpre), PushBatch_cons.
    unfold bind. by destruct (Push j s) as [[[]| | |] s1].
Qed.

(** C5: [PushBatch] goes through the jobs in input order and stops at the
    first one whose push fails.  Let pushing the jobs [pre] one by one with
    [Push] succeed and leave the state [s1].  Then the batch [pre] returns
    nil in exactly that state, in which the consumers have been called once
    per job of [pre], in the order of [pre].  When the push of the next job
    [j] fails there (unknown pipeline, consumer not registered, or error of
    the consumer's Push), the batch returns that error in the state that the
    failed push leaves from [s1]: what [pre] pushed stays pushed, and the
    jobs [post] are not looked at.  When it succeeds the batch goes on with
    [post] from the state that push leaves. *)
Theorem PushBatch_stops_at_first_failure pre j post job s s1 :
  each Push pre s = (Ret tt, s1) ->
  jobs (world s1) !! j = Some job ->
  let name := structs.Pipeline (structs.Options job) in
  PushBatch pre s = (Ret tt, s1) /\
  (exists acts,
     trace s1 = trace s ++ acts /\
     omap pushed_job acts = pre /\
     length acts = length pre) /\
  (forall e s2,
     Push j s1 = (Fail e, s2) ->
     PushBatch (pre ++ j :: post) s = (Fail e, s2)) /\
  (pipelines s1 !! name = None ->
     PushBatch (pre ++ j :: post) s =
       (Fail (E "jobs_plugin_push"
                (Errorf ("no such pipeline, requested: " +:+ name))), s1)) /\
  (forall ppl,
     pipelines s1 !! name = Some ppl ->
     consumers s1 !! pipeline.Name ppl = None ->
     PushBatch (pre ++ j :: post) s =
       (Fail (E "jobs_plugin_push"
                (Errorf ("consumer not registered for the requested driver: "
                         +:+ pipeline.Driver ppl))), s1)) /\
  (forall ppl d,
     pipelines s1 !! name = Some ppl ->
     consumers s1 !! pipeline.Name ppl = Some d ->
     Push j s1 = delegated ppl d j job s1 /\
     PushBatch (pre ++ j :: post) s =
       match delegated ppl d j job s1 with
       | (Ret _, s2) => each Push post s2
       | failed => failed
       end) /\
  PushBatch (pre ++ post) s = each Push post s1 /\
  (forall js t, PushBatch js t = each Push js t).
Proof.
  intros Heach Hj name.
  assert (Hpre : PushBatch pre s = (Ret tt, s1)) by (by rewrite PushBatch_each).
  assert (Hstop : forall e s2,
             Push j s1 = (Fail e, s2) ->
             PushBatch (pre ++ j :: post) s = (Fail e, s2)).
  { intros e s2 HP.
    rewrite PushBatch_app, (bind_Ret _ _ _ _ _ Hpre), PushBatch_cons.
    by apply bind_Fail. }
  destruct (Push_lookup_failure_leaves j job s1 Hj) as [Hnf Hun].
  split; [exact Hpre|]. split; [by apply each_Push_trace|].
  split; [exact Hstop|]. split; [|split; [|split; [|split]]].
  - intros Hp. apply Hstop. by apply Hnf.
  - intros ppl Hp Hd. apply Hstop. by apply Hun.
  - intros ppl d Hp Hd.
    pose proof (Push_delegated j job ppl d s1 Hj Hp Hd) as HP.
    split; [exact HP|].
    rewrite PushBatch_app, (bind_Ret _ _ _ _ _ Hpre), PushBatch_cons.
    unfold bind. rewrite HP. unfold delegated.
    destruct (cPush d j _) as [[err|] w]; cbn [fst snd]; [reflexivity|].
    apply PushBatch_each.
  - by rewrite PushBatch_app, (bind_Ret _ _ _ _ _ Hpre), PushBatch_each.
  - apply PushBatch_each.
Qed.

(** *** Destroy *)

Lemma Destroy_found pp ppl d s :
  pipelines s !! pp = Some ppl ->
  consumers s !! pipeline.Name ppl = Some d ->
  Destroy pp s =
    (match (cStop d (world s)).1 with
     | Some err => Fail err
     | None => Ret tt
     end,
     set_world (cStop d (world s)).2
       (record (CallStop d)
          (set_pipelines (delete pp)
             (set_consumers (delete (pipeline.Name ppl)) s)))).
Proof.
  intros Hp Hd. unfold Destroy, bind, gets, modify, call. cbv zeta.
  rewrite Hp, Hd. cbn.
  destruct (cStop d (world s)) as [[err|] w]; reflexivity.
Qed.

Lemma Destroy_not_found pp s :
  pipelines s !! pp = None ->
  Destroy pp s =
    (Fail (E "jobs_plugin_destroy"
             (Errorf ("no such pipeline, requested: " +:+ pp))), s).
Proof.
  intros Hp. unfold Destroy, bind, gets. cbv zeta. by rewrite Hp.
Qed.

(** C6: [Destroy] of a name that is not in the pipeline registry fails with
    the "no such pipeline" (NotFound) error, and of a pipeline without a
    live consumer with the "consumer not registered" error, both leaving
    the state as it was.  Otherwise it deletes the consumer entry and the
    pipeline entry, calls Stop on the consumer and returns Stop's result as
    it is, error or not, with the two entries gone; after that a second
    [Destroy] of the name fails with NotFound, and so does a [Push] of any
    job addressed to that name. *)
Theorem Destroy_removes_both_entries pp s :
  (pipelines s !! pp = None ->
     exists e,
       Destroy pp s = (Fail e, s) /\ NotFound e = true /\
       e = E "jobs_plugin_destroy" (Errorf ("no such pipeline, requested: " +:+ pp)))
  /\
  (forall ppl,
     pipelines s !! pp = Some ppl ->
     consumers s !! pipeline.Name ppl = None ->
     exists e,
       Destroy pp s = (Fail e, s) /\ DriverUnregistered e = true /\
       e = E "jobs_plugin_destroy"
             (Errorf ("consumer not registered for the requested driver: "
                      +:+ pipeline.Driver ppl)))
  /\
  (forall ppl d,
     pipelines s !! pp = Some ppl ->
     consumers s !! pipeline.Name ppl = Some d ->
     let s' := (Destroy pp s).2 in
     (Destroy pp s).1 =
       match (cStop d (world s)).1 with
       | Some err => Fail err
       | None => Ret tt
       end /\
     world s' = (cStop d (world s)).2 /\
     trace s' = trace s ++ [CallStop d] /\
     consumers s' = delete (pipeline.Name ppl) (consumers s) /\
     pipelines s' = delete pp (pipelines s) /\
     consumers s' !! pipeline.Name ppl = None /\
     pipelines s' !! pp = None /\
     (exists e, Destroy pp s' = (Fail e, s') /\ NotFound e = true) /\
     (forall j job,
        jobs (world s') !! j = Some job ->
        structs.Pipeline (structs.Options job) = pp ->
        exists e, Push j s' = (Fail e, s') /\ NotFound e = true)).
Proof.
  split; [|split].
  - intros Hp. eexists. split; [by apply Destroy_not_found|].
    split; reflexivity.
  - intros ppl Hp Hd. eexists.
    split; [unfold Destroy, bind, gets; cbv zeta; by rewrite Hp, Hd|].
    split; reflexivity.
  - intros ppl d Hp Hd s'.
    pose proof (Destroy_found pp ppl d s Hp Hd) as HD.
    assert (Hs' : s' = set_world (cStop d (world s)).2
                         (record (CallStop d)
                            (set_pipelines (delete pp)
                               (set_consumers (delete (pipeline.Name ppl)) s))))
      by (subst s'; by rewrite HD).
    assert (Hgone : pipelines s' !! pp = None)
      by (rewrite Hs'; apply lookup_delete_eq).
    split; [by rewrite HD|].
    split; [by rewrite Hs'|]. split; [by rewrite Hs'|].
    split; [by rewrite Hs'|]. split; [by rewrite Hs'|].
    split; [rewrite Hs'; apply lookup_delete_eq|].
    split; [exact Hgone|]. split.
    + eexists. split; [by apply Destroy_not_found | reflexivity].
    + intros j job Hj Hname. eexists. split.
      * destruct (Push_lookup_failure_leaves j job s' Hj) as [Hnf _].
        apply Hnf. rewrite Hname. exact Hgone.
      * reflexivity.
Qed.

(** *** Declare_ *)

Lemma List_elem s name :
  (exists names, List s = (Ret names, s) /\ name ∈ names) <->
  is_Some (pipelines s !! name).
Proof.
  unfold List, gets, Range_entries. split.
  - intros (names & [= <-] & Hin).
    apply list_elem_of_fmap in Hin as ([k pipe] & -> & Hin).
    apply elem_of_map_to_list in Hin. by exists pipe.
  - intros [pipe Hp]. eexists. split; [reflexivity|].
    apply list_elem_of_fmap. exists (name, pipe). split; [done|].
    by apply elem_of_map_to_list.
Qed.

(** C1 as the code has it: [Declare_] of a pipeline whose driver-type name
    is not empty and has no registered constructor returns nil, creates no
    consumer entry, calls nothing, and stores the pipeline under its name,
    so that [List] reports it. *)
Theorem Declare_without_constructor_stores_pipeline pipe s :
  pipeline.Driver pipe <> "" ->
  jobConstructors s !! pipeline.Driver pipe = None ->
  Declare_ pipe s = (Ret tt, set_pipelines (<[pipeline.Name pipe := pipe]>) s) /\
  consumers (Declare_ pipe s).2 = consumers s /\
  trace (Declare_ pipe s).2 = trace s /\
  pipelines (Declare_ pipe s).2 !! pipeline.Name pipe = Some pipe /\
  exists names,
    List (Declare_ pipe s).2 = (Ret names, (Declare_ pipe s).2) /\
    pipeline.Name pipe ∈ names.
Proof.
  intros Hdr Hc.
  assert (HD : Declare_ pipe s =
               (Ret tt, set_pipelines (<[pipeline.Name pipe := pipe]>) s)).
  { unfold Declare_. cbv zeta. destruct (decide _) as [Heq|_]; [done|].
    unfold bind, gets. by rewrite Hc. }
  rewrite HD. cbn [snd].
  assert (Hin : pipelines (set_pipelines (<[pipeline.Name pipe := pipe]>) s)
                  !! pipeline.Name pipe = Some pipe)
    by apply lookup_insert_eq.
  repeat (split; [done|]).
  apply List_elem. by exists pipe.
Qed.

(** The failing paths of [Declare_] once the driver has been constructed. *)
Lemma Declare_register_fails pipe c d w1 err w2 s :
  pipeline.Driver pipe <> "" ->
  jobConstructors s !! pipeline.Driver pipe = Some c ->
  FromPipeline c pipe (world s) = (inl d, w1) ->
  cRegister d pipe w1 = (Some err, w2) ->
  exists s',
    Declare_ pipe s =
      (Fail (E "jobs_plugin_declare"
               (Errorf ("pipe register failed for the driver: "
                        +:+ pipeline.Driver pipe +:+ " with pipe name: "
                        +:+ pipeline.Name pipe))), s') /\
    consumers s' = <[pipeline.Name pipe := d]> (consumers s) /\
    pipelines s' = pipelines s.
Proof.
  intros Hdr Hc Hf Hr. eexists. split.
  - unfold Declare_. cbv zeta. destruct (decide _) as [Heq|_]; [done|].
    unfold bind, gets, call, modify. rewrite Hc, Hf. cbn. rewrite Hr.
    reflexivity.
  - split; reflexivity.
Qed.

(** [Destroy] keeps the invariant, whatever it returns. *)
Lemma Destroy_keeps_invariant pp s :
  keyed_by_name s -> consumers_have_pipelines s ->
  keyed_by_name (Destroy pp s).2 /\ consumers_have_pipelines (Destroy pp s).2.
Proof.
  intros Hk Hinv.
  destruct (pipelines s !! pp) as [ppl|] eqn:Hp;
    [|by rewrite Destroy_not_found].
  destruct (consumers s !! pipeline.Name ppl) as [d|] eqn:Hd.
  - rewrite (Destroy_found pp ppl d s Hp Hd). cbn.
    rewrite (Hk _ _ Hp).
    unfold keyed_by_name, consumers_have_pipelines in *. cbn. split.
    + intros key pipe Hl. apply lookup_delete_Some in Hl as [_ Hl]. eauto.
    + intros name Hl. destruct (decide (pp = name)) as [->|Hne].
      * rewrite lookup_delete_eq in Hl. by destruct Hl.
      * rewrite (lookup_delete_ne (consumers s)) in Hl by done.
        rewrite lookup_delete_ne by done. auto.
  - unfold Destroy, bind, gets. cbv zeta. by rewrite Hp, Hd.
Qed.

(** [Declare_] keeps the invariant when it returns nil. *)
Lemma Declare_ok_keeps_invariant pipe s s' :
  keyed_by_name s -> consumers_have_pipelines s ->
  Declare_ pipe s = (Ret tt, s') ->
  keyed_by_name s' /\ consumers_have_pipelines s'.
Proof.
  intros Hk Hinv. unfold Declare_. cbv zeta.
  destruct (decide _) as [|_]; [done|].
  assert (Hgoal : forall t,
    pipelines t = pipelines s ->
    (forall name, is_Some (consumers t !! name) ->
       name = pipeline.Name pipe \/ is_Some (consumers s !! name)) ->
    keyed_by_name (set_pipelines (<[pipeline.Name pipe := pipe]>) t) /\
    consumers_have_pipelines (set_pipelines (<[pipeline.Name pipe := pipe]>) t)).
  { intros t Hpt Hct.
    unfold keyed_by_name, consumers_have_pipelines in *. split.
    - intros key p. cbn. rewrite Hpt.
      intros [[<- <-]|[_ Hl]]%lookup_insert_Some; eauto.
    - intros name Hl. cbn. rewrite Hpt.
      destruct (decide (pipeline.Name pipe = name)) as [<-|Hne].
      + rewrite lookup_insert_eq. eauto.
      + rewrite lookup_insert_ne by done.
        destruct (Hct _ Hl) as [->|?]; [done|auto]. }
  unfold bind, gets, call, modify.
  destruct (jobConstructors s !! _) as [c|].
  - destruct (FromPipeline c pipe (world s)) as [[d|err] w1]; [|done]. cbn.
    destruct (cRegister d pipe w1) as [[err|] w2]; [done|]. cbn.
    assert (Hct : forall t, consumers t = <[pipeline.Name pipe := d]> (consumers s) ->
              forall name, is_Some (consumers t !! name) ->
              name = pipeline.Name pipe \/ is_Some (consumers s !! name)).
    { intros t -> name Hl.
      destruct (decide (pipeline.Name pipe = name)) as [<-|Hne]; [by left|].
      rewrite lookup_insert_ne in Hl by done. by right. }
    destruct (bool_decide _); cbn.
    + destruct (cRun d pipe w2) as [[err|] w3]; cbn; [done|].
      intros [= <-]. apply Hgoal; [done|]. by apply Hct.
    + cbn. intros [= <-]. apply Hgoal; [done|]. by apply Hct.
  - cbn. intros [= <-]. apply Hgoal; [done|]. auto.
Qed.

(** *** Pause and Resume *)

Lemma Pause_unknown_pipeline name rest s :
  pipelines s !! name = None ->
  Pause (name :: rest) s =
    (Panic "interface conversion: interface {} is nil, not *pipeline.Pipeline",
     record (Log Error "no such pipeline" [("requested", VStr name)]) s).
Proof.
  intros Hp. cbn [Pause]. unfold bind, gets. by rewrite Hp.
Qed.

Lemma Pause_missing_consumer name rest ppl s :
  pipelines s !! name = Some ppl ->
  consumers s !! pipeline.Name ppl = None ->
  Pause (name :: rest) s =
    (Ret tt,
     record (Log Warn "driver for the pipeline not found" [("pipeline", VStr name)]) s).
Proof.
  intros Hp Hd. cbn [Pause]. unfold bind, gets. rewrite Hp. cbn.
  by rewrite Hd.
Qed.

Lemma Pause_found name rest ppl d s :
  pipelines s !! name = Some ppl ->
  consumers s !! pipeline.Name ppl = Some d ->
  Pause (name :: rest) s =
    Pause rest (set_world (cPause d (pipeline.Name ppl) (world s))
                  (record (CallPause d (pipeline.Name ppl)) s)).
Proof.
  intros Hp Hd. cbn [Pause]. unfold bind, gets. rewrite Hp. cbn.
  by rewrite Hd.
Qed.

Lemma Resume_unknown_pipeline name rest s :
  pipelines s !! name = None ->
  Resume (name :: rest) s =
    (Panic "interface conversion: interface {} is nil, not *pipeline.Pipeline",
     record (Log Error "no such pipeline" [("requested", VStr name)]) s).
Proof.
  intros Hp. cbn [Resume]. unfold bind, gets. by rewrite Hp.
Qed.

Lemma Resume_missing_consumer name rest ppl s :
  pipelines s !! name = Some ppl ->
  consumers s !! pipeline.Name ppl = None ->
  Resume (name :: rest) s =
    (Ret tt,
     record (Log Warn "driver for the pipeline not found" [("pipeline", VStr name)]) s).
Proof.
  intros Hp Hd. cbn [Resume]. unfold bind, gets. rewrite Hp. cbn.
  by rewrite Hd.
Qed.

(** *** The poller loop *)

Lemma trace_recorded acts s : trace (recorded acts s) = trace s ++ acts.
Proof.
  revert s. induction acts as [|a acts IH]; intros s.
  - cbn. by rewrite app_nil_r.
  - change (recorded (a :: acts) s) with (recorded acts (record a s)).
    rewrite IH. cbn. by rewrite <- app_assoc.
Qed.

(** X23: a poller that finds no stop signal and gets a job from the queue
    while a worker pool is installed goes through one round and stays in
    the loop, whatever the job's Context, the executor, Ack and Nack return.
    In that round it calls exactly one acknowledgement of the job, and the
    world afterwards is the one that call leaves: Nack when the job's context
    cannot be resolved (the executor is then not called, and no pool is
    needed), Nack when the executor fails, Ack when the executor succeeds.
    A failing acknowledgement adds one error record to the log and nothing
    else; the round ends in the same way. *)
Theorem poller_acknowledges_each_job_once (it : Item) w s :
  stopCh s = 0%nat ->
  ExtractMin (world s) = Some (it, w) ->
  (forall err w1,
     iContext it w = (inr err, w1) ->
     let acts :=
       [CallContext it; CallNack it]
       ++ log_failure "negatively acknowledge failed" (iNack it w1).1
       ++ [Log Error "job marshal context" [("error", VErr err)]] in
     poller_round s = (Ret true, set_world (iNack it w1).2 (recorded acts s)) /\
     List.filter is_ack_attempt acts = [CallNack it]) /\
  (forall wp ctx w1 err w2,
     workersPool s = Some wp ->
     iContext it w = (inl ctx, w1) ->
     pExec wp (payload.mk ctx (iBody it)) w1 = (Some err, w2) ->
     let acts :=
       [CallContext it; RLock; CallExec (payload.mk ctx (iBody it)); CallNack it]
       ++ log_failure "negatively acknowledge failed" (iNack it w2).1
       ++ [RUnlock; Log Error "job execute" [("error", VErr err)]] in
     poller_round s = (Ret true, set_world (iNack it w2).2 (recorded acts s)) /\
     List.filter is_ack_attempt acts = [CallNack it]) /\
  (forall wp ctx w1 w2,
     workersPool s = Some wp ->
     iContext it w = (inl ctx, w1) ->
     pExec wp (payload.mk ctx (iBody it)) w1 = (None, w2) ->
     let acts :=
       [CallContext it; RLock; CallExec (payload.mk ctx (iBody it)); RUnlock;
        CallAck it]
       ++ log_failure "acknowledge failed" (iAck it w2).1 in
     poller_round s = (Ret true, set_world (iAck it w2).2 (recorded acts s)) /\
     List.filter is_ack_attempt acts = [CallAck it]) /\
  (forall s',
     poller_round s = (Ret true, s') ->
     forall fuel, poller (S fuel) s = poller fuel s').
Proof.
  intros Hstop Hex.
  assert (Hround : poller_round s =
                   bind (dispatch it) (fun _ => ret true) (set_world w s)).
  { unfold poller_round, bind at 1, gets, extract_min. rewrite Hstop.
    unfold bind at 1. by rewrite Hex. }
  assert (Hloop : forall s',
             poller_round s = (Ret true, s') ->
             forall fuel, poller (S fuel) s = poller fuel s').
  { intros s' Hr fuel. cbn [poller]. by rewrite (bind_Ret _ _ _ _ _ Hr). }
  revert Hloop.
  rewrite Hround. unfold dispatch, bind, gets, call, modify, log. cbn.
  intros Hloop. split; [|split; [|split; [|exact Hloop]]].
  - intros err w1 Hc. rewrite Hc. cbn.
    destruct (iNack it w1) as [[errNack|] w2]; cbn; by split.
  - intros wp ctx w1 err w2 Hwp Hc He. rewrite Hc. cbn. rewrite Hwp. cbn.
    rewrite He. cbn.
    destruct (iNack it w2) as [[errNack|] w3]; cbn; by split.
  - intros wp ctx w1 w2 Hwp Hc He. rewrite Hc. cbn. rewrite Hwp. cbn.
    rewrite He. cbn.
    destruct (iAck it w2) as [[errAck|] w3]; cbn; by split.
Qed.

(** *** Serve *)



Lemma serve_pipe_continue_errCh entry s s' :
  serve_pipe entry s = (Ret true, s') -> errCh s' = errCh s.
Proof.
  unfold serve_pipe, bind, gets, call, modify, send_errCh, push_event.
  cbv zeta.
  destruct (jobConstructors s !! _) as [c|]; [|by intros [= <-]].
  destruct (JobsConstruct c _ _) as [[d|err] w1]; cbn.
  - destruct (cRegister d _ w1) as [[err|] w2]; cbn.
    + destruct (decide _); cbn; intros [=].
    + destruct (bool_decide _); cbn; [|by intros [= <-]].
      destruct (cRun d _ w2) as [[err|] w3]; cbn; [|by intros [= <-]].
      destruct (decide _); cbn; intros [=].
  - destruct (decide _); cbn; intros [=].
Qed.

Lemma all_continue_errCh entries s s' :
  all_continue serve_pipe entries s = Some s' -> errCh s' = errCh s.
Proof.
  revert s. induction entries as [|entry rest IH]; intros s; cbn [all_continue].
  - by intros [= <-].
  - destruct (serve_pipe entry s) as [[[]| | |] s1] eqn:Hs; try done.
    intros Hrest. rewrite (IH _ Hrest). by apply serve_pipe_continue_errCh in Hs.
Qed.

Lemma Range_all_continue f pre post s s1 :
  all_continue f pre s = Some s1 ->
  Range f (pre ++ post) s = Range f post s1.
Proof.
  revert s. induction pre as [|entry pre IH]; intros s;
    cbn [all_continue app Range].
  - by intros [= <-].
  - unfold bind. destruct (f entry s) as [[[]| | |] s']; try done. apply IH.
Qed.


End Properties.

(** * The properties on the sample backend *)

Section Runs.
Import Sample.

(** C1, as the spec words it, fails: for the pipeline "orphan", whose
    driver type "unregistered" has no constructor, [Declare_] does not
    return an error and the pipeline is not absent from [List]. *)
Lemma Declare_unregistered_driver_counterexample :
  pipeline.Driver orphan <> "" /\
  jobConstructors booted !! pipeline.Driver orphan = None /\
  ~ ((exists e, (Declare_ orphan booted).1 = Fail e) /\
     forall names,
       (List (Declare_ orphan booted).2).1 = Ret names ->
       pipeline.Name orphan ∉ names).
Proof.
  split; [done|]. split; [reflexivity|].
  intros [[e He] _]. vm_compute in He. discriminate.
Qed.

Lemma Declare_without_constructor_stores_pipeline_witness :
  pipeline.Driver orphan <> "" /\
  jobConstructors booted !! pipeline.Driver orphan = None /\
  (Declare_ orphan booted).1 = Ret tt /\
  consumers (Declare_ orphan booted).2 = consumers booted /\
  exists names,
    List (Declare_ orphan booted).2 = (Ret names, (Declare_ orphan booted).2) /\
    "orphan" ∈ names.
Proof.
  assert (H1 : pipeline.Driver orphan <> "") by done.
  assert (H2 : jobConstructors booted !! pipeline.Driver orphan = None)
    by reflexivity.
  destruct (Declare_without_constructor_stores_pipeline orphan booted H1 H2)
    as (HD & Hc & _ & _ & HL).
  split; [exact H1|]. split; [exact H2|].
  split; [by rewrite HD|]. split; [exact Hc|]. exact HL.
Defined.

(** C2, on the code: a name without pipeline makes [Pause] and [Resume]
    panic after the log record, and a pipeline without consumer makes them
    return after the log record; in both cases "p1", next in the list, is not
    reached, although on its own it is paused and resumed. *)
Theorem Pause_Resume_stop_at_lookup_failure :
  paused (ext (world (run (Pause ["p1"]) declared))) = ["p1"] /\
  Pause ["missing"; "p1"] declared =
    (Panic "interface conversion: interface {} is nil, not *pipeline.Pipeline",
     record (Log Error "no such pipeline" [("requested", VStr "missing")]) declared) /\
  Pause ["orphan"; "p1"] declared =
    (Ret tt,
     record (Log Warn "driver for the pipeline not found" [("pipeline", VStr "orphan")])
       declared) /\
  paused (ext (world (run (Resume ["p1"]) paused1))) = [] /\
  Resume ["missing"; "p1"] paused1 =
    (Panic "interface conversion: interface {} is nil, not *pipeline.Pipeline",
     record (Log Error "no such pipeline" [("requested", VStr "missing")]) paused1) /\
  Resume ["orphan"; "p1"] paused1 =
    (Ret tt,
     record (Log Warn "driver for the pipeline not found" [("pipeline", VStr "orphan")])
       paused1) /\
  paused (ext (world (run (Resume ["orphan"; "p1"]) paused1))) = ["p1"].
Proof.
  split; [reflexivity|].
  split; [by apply Pause_unknown_pipeline|].
  split; [by apply (Pause_missing_consumer "orphan" ["p1"] orphan)|].
  split; [reflexivity|].
  split; [by apply Resume_unknown_pipeline|].
  split; [by apply (Resume_missing_consumer "orphan" ["p1"] orphan)|].
  reflexivity.
Qed.

(** C3, on the code: from a state that satisfies the invariant, the
    declaration of "p2", whose consumer fails in Register, returns the error
    and leaves that consumer stored under "p2" while no pipeline "p2" is
    registered; the state no longer satisfies the invariant, and [Destroy]
    cannot remove the entry.  The same happens to "p4", whose consumer fails
    in Run. *)
Theorem Declare_failed_Register_leaves_consumer :
  consumers_have_pipelines booted /\
  Declare_ p2 booted =
    (Fail (E "jobs_plugin_declare"
             (Errorf "pipe register failed for the driver: broken with pipe name: p2")),
     run (Declare_ p2) booted) /\
  consumers (run (Declare_ p2) booted) !! "p2" = Some 2%nat /\
  pipelines (run (Declare_ p2) booted) !! "p2" = None /\
  ~ consumers_have_pipelines (run (Declare_ p2) booted) /\
  (Destroy "p2" (run (Declare_ p2) booted)).1 =
    Fail (E "jobs_plugin_destroy" (Errorf "no such pipeline, requested: p2")) /\
  (Declare_ p4 booted_consuming).1 = Fail (E "jobs_plugin_declare" (External 3)) /\
  consumers (run (Declare_ p4) booted_consuming) !! "p4" = Some 3%nat /\
  pipelines (run (Declare_ p4) booted_consuming) !! "p4" = None.
Proof.
  split.
  { assert (Hc : consumers booted = ∅) by reflexivity.
    intros name [d Hd]. rewrite Hc in Hd. by rewrite lookup_empty in Hd. }
  split; [reflexivity|]. split; [reflexivity|]. split; [reflexivity|].
  split; [|repeat split; reflexivity].
  intros Hinv. destruct (Hinv "p2") as [pipe Hp]; [by exists 2%nat|].
  discriminate Hp.
Qed.

(** Job 1 has priority 0 and goes to "p1", of priority 7: the consumer is
    handed the job with priority 7 and puts it in the queue.  In the batch
    of jobs 1 and 3, job 3 keeps its priority 2. *)
Lemma priority_resolved_before_delegation_witness :
  jobs (world declared) !! 1%nat = Some (job "p1" 0) /\
  pipelines declared !! "p1" = Some p1 /\
  consumers declared !! "p1" = Some 1%nat /\
  Push 1%nat declared = delegated p1 1%nat 1%nat (job "p1" 0) declared /\
  trace (Push 1%nat declared).2 =
    trace declared ++ [CallPush 1%nat 1%nat (Some (job "p1" 7))] /\
  pushed (ext (world (Push 1%nat declared).2)) = [1%nat] /\
  (PushBatch [1%nat; 3%nat] declared).1 = Ret tt /\
  trace (PushBatch [1%nat; 3%nat] declared).2 =
    trace declared ++ [CallPush 1%nat 1%nat (Some (job "p1" 7));
                       CallPush 1%nat 3%nat (Some (job "p1" 2))] /\
  pushed (ext (world (PushBatch [1%nat; 3%nat] declared).2)) = [1%nat; 3%nat].
Proof.
  assert (H1 : jobs (world declared) !! 1%nat = Some (job "p1" 0)) by reflexivity.
  assert (H2 : pipelines declared
                 !! structs.Pipeline (structs.Options (job "p1" 0)) = Some p1)
    by reflexivity.
  assert (H3 : consumers declared !! pipeline.Name p1 = Some 1%nat) by reflexivity.
  destruct (priority_resolved_before_delegation (B := backend)
              1%nat (job "p1" 0) p1 1%nat declared H1 H2 H3)
    as (Hz & _ & HP & HT & HW & _ & _ & Heach & _).
  destruct (Hz eq_refl) as [Hres _]. rewrite Hres in HT.
  split; [exact H1|]. split; [exact H2|]. split; [exact H3|].
  split; [exact HP|]. split; [exact HT|].
  split; [rewrite HW; vm_compute; reflexivity|].
  rewrite (Heach [1%nat; 3%nat] declared).
  split; [vm_compute; reflexivity|]. split; vm_compute; reflexivity.
Defined.

(** Job 2 is addressed to "missing", job 4 to "orphan", which has no
    consumer: both pushes fail and leave the state as it is. *)
Lemma Push_lookup_failure_changes_nothing_witness :
  jobs (world declared) !! 2%nat = Some (job "missing" 3) /\
  jobs (world declared) !! 4%nat = Some (job "orphan" 1) /\
  Push 2%nat declared =
    (Fail (E "jobs_plugin_push" (Errorf "no such pipeline, requested: missing")),
     declared) /\
  Push 4%nat declared =
    (Fail (E "jobs_plugin_push"
             (Errorf "consumer not registered for the requested driver: unregistered")),
     declared).
Proof.
  assert (H2 : jobs (world declared) !! 2%nat = Some (job "missing" 3)) by reflexivity.
  assert (H4 : jobs (world declared) !! 4%nat = Some (job "orphan" 1)) by reflexivity.
  destruct (Push_lookup_failure_changes_nothing (B := backend) 2%nat _ declared H2) as [Hnf _].
  destruct (Push_lookup_failure_changes_nothing (B := backend) 4%nat _ declared H4) as [_ Hun].
  destruct (Hnf eq_refl) as (e1 & HP1 & _ & ->).
  destruct (Hun orphan eq_refl eq_refl) as (e2 & HP2 & _ & ->).
  split; [exact H2|]. split; [exact H4|]. split; [exact HP1 | exact HP2].
Defined.

(** Job 1 after [Push]: the object behind the caller's pointer carries the
    priority of "p1", the other objects are as they were.  The same after the
    batch of jobs 3 and 1; in the batch that holds the pointer to job 1
    twice, the second push finds the priority the first one wrote. *)
Lemma Push_writes_priority_in_place_witness :
  jobs (world declared) !! 1%nat = Some (job "p1" 0) /\
  jobs (world (Push 1%nat declared).2) !! 1%nat = Some (job "p1" 7) /\
  jobs (world (Push 1%nat declared).2) !! 3%nat = jobs (world declared) !! 3%nat /\
  jobs (world (PushBatch [3%nat; 1%nat] declared).2) !! 1%nat = Some (job "p1" 7) /\
  jobs (world (PushBatch [3%nat; 1%nat] declared).2) !! 3%nat = Some (job "p1" 2) /\
  trace (PushBatch [1%nat; 1%nat] declared).2 =
    trace declared ++ [CallPush 1%nat 1%nat (Some (job "p1" 7));
                       CallPush 1%nat 1%nat (Some (job "p1" 7))].
Proof.
  assert (H1 : jobs (world declared) !! 1%nat = Some (job "p1" 0)) by reflexivity.
  assert (H2 : pipelines declared
                 !! structs.Pipeline (structs.Options (job "p1" 0)) = Some p1)
    by reflexivity.
  assert (H3 : consumers declared !! pipeline.Name p1 = Some 1%nat) by reflexivity.
  destruct (Push_writes_priority_in_place (B := backend)
              1%nat (job "p1" 0) p1 1%nat declared H1 H2 H3 eq_refl)
    as (job' & wd & Hprio & Hpipe & Hdelay & Hid & Hbody & Hjobs & Hext & HP
        & HW & Hkeep & _ & _ & Heach & _).
  assert (Hj' : job' = job "p1" 7).
  { destruct job' as [i b [pr pi de]]. cbn in *. by subst. }
  subst job'. destruct (Hkeep eq_refl) as [Hat Hother].
  split; [exact H1|]. split; [exact Hat|]. split; [by apply Hother|].
  rewrite (Heach [3%nat; 1%nat] declared), (Heach [1%nat; 1%nat] declared).
  split; [vm_compute; reflexivity|]. split; vm_compute; reflexivity.
Defined.

(** The scenario of the spec: in the batch of jobs 1, 2, 3 the second one is
    addressed to "missing"; the batch returns its NotFound error, job 1 is
    in the queue and job 3 is not. *)
Lemma PushBatch_stops_at_first_failure_witness :
  each Push [1%nat] declared = (Ret tt, run (Push 1%nat) declared) /\
  jobs (world (run (Push 1%nat) declared)) !! 2%nat = Some (job "missing" 3) /\
  PushBatch [1%nat] declared = (Ret tt, run (Push 1%nat) declared) /\
  PushBatch [1%nat; 2%nat; 3%nat] declared =
    (Fail (E "jobs_plugin_push" (Errorf "no such pipeline, requested: missing")),
     run (Push 1%nat) declared) /\
  pushed (ext (world (PushBatch [1%nat; 2%nat; 3%nat] declared).2)) = [1%nat] /\
  pushed (ext (world (PushBatch [1%nat; 3%nat; 2%nat] declared).2))
    = [1%nat; 3%nat].
Proof.
  assert (H1 : each Push [1%nat] declared = (Ret tt, run (Push 1%nat) declared))
    by (vm_compute; reflexivity).
  assert (H2 : jobs (world (run (Push 1%nat) declared)) !! 2%nat
               = Some (job "missing" 3)) by (vm_compute; reflexivity).
  destruct (PushBatch_stops_at_first_failure (B := backend)
              [1%nat] 2%nat [3%nat] _ declared _ H1 H2)
    as (Hpre & _ & _ & Hnf & _ & _ & _ & Heach).
  pose proof (Hnf ltac:(vm_compute; reflexivity)) as HB. cbn [app] in HB.
  split; [exact H1|]. split; [exact H2|]. split; [exact Hpre|].
  split; [exact HB|].
  split; [exact (f_equal (fun r => pushed (ext (world r.2))) HB)|].
  rewrite (Heach [1%nat; 3%nat; 2%nat] declared). vm_compute. reflexivity.
Defined.

(** "p3" has a consumer whose Stop fails: [Destroy] returns that error with
    both entries gone, and a second [Destroy] finds no pipeline. *)
Lemma Destroy_removes_both_entries_witness :
  pipelines declared3 !! "p3" = Some p3 /\
  consumers declared3 !! "p3" = Some 4%nat /\
  (Destroy "p3" declared3).1 = Fail (External 4) /\
  consumers (Destroy "p3" declared3).2 !! "p3" = None /\
  pipelines (Destroy "p3" declared3).2 !! "p3" = None /\
  exists e,
    Destroy "p3" (Destroy "p3" declared3).2 = (Fail e, (Destroy "p3" declared3).2) /\
    NotFound e = true.
Proof.
  assert (H1 : pipelines declared3 !! "p3" = Some p3) by reflexivity.
  assert (H2 : consumers declared3 !! pipeline.Name p3 = Some 4%nat) by reflexivity.
  destruct (Destroy_removes_both_entries (B := backend) "p3" declared3) as (_ & _ & Hok).
  destruct (Hok p3 4%nat H1 H2) as (Hr & _ & _ & _ & _ & Hc & Hp & Hagain & _).
  split; [exact H1|]. split; [exact H2|]. split; [exact Hr|].
  split; [exact Hc|]. split; [exact Hp|]. exact Hagain.
Defined.

(** The first job of the queue fails in the executor: it is nacked once,
    the failing Nack is logged, and the poller goes round again. *)
Lemma poller_acknowledges_each_job_once_witness :
  stopCh polling = 0%nat /\
  workersPool polling = Some 1%nat /\
  (poller_round polling).1 = Ret true /\
  nacked (ext (world (poller_round polling).2)) = ["j1"] /\
  acked (ext (world (poller_round polling).2)) = [] /\
  trace (poller_round polling).2 =
    [CallContext bad_item; RLock;
     CallExec (payload.mk "ctx" "bad"); CallNack bad_item;
     Log Error "negatively acknowledge failed" [("error", VErr (External 9))];
     RUnlock; Log Error "job execute" [("error", VErr (External 7))]].
Proof.
  set (w := mkWorld ∅ (mkExt [] [good_item] [] [] [])).
  assert (H1 : stopCh polling = 0%nat) by reflexivity.
  assert (H2 : ExtractMin (world polling) = Some (bad_item, w)) by reflexivity.
  assert (H3 : workersPool polling = Some 1%nat) by reflexivity.
  destruct (poller_acknowledges_each_job_once (B := backend) bad_item w polling
              H1 H2) as (_ & Hnack & _).
  destruct (Hnack 1%nat "ctx" w (External 7) w H3 eq_refl eq_refl) as [Hr _].
  split; [exact H1|]. split; [exact H3|]. rewrite Hr. cbn [fst snd].
  split; [reflexivity|]. split; [reflexivity|]. split; reflexivity.
Defined.


End Runs.

(** * Further properties of the plugin *)

Section MoreProperties.
Context `{PC : PoolControl}.
Context `{CD : ConfigDefaults}.

Implicit Types (s : Plugin) (j : ptr) (job : Job) (ppl pipe : Pipeline).

Lemma same_registries_refl s : same_registries s s.
Proof. by repeat split. Qed.

Lemma same_registries_trans s1 s2 s3 :
  same_registries s1 s2 -> same_registries s2 s3 -> same_registries s1 s3.
Proof.
  intros (H1 & H2 & H3 & H4) (G1 & G2 & G3 & G4).
  repeat split; congruence.
Qed.

(** X1: [List] returns every name of the pipeline registry exactly once and
    nothing else, and leaves the plugin as it is. *)
Theorem List_reports_each_pipeline_once s :
  exists names,
    List s = (Ret names, s) /\
    NoDup names /\
    length names = size (pipelines s) /\
    forall name, name ∈ names <-> is_Some (pipelines s !! name).
Proof.
  exists (Range_entries s).*1. split; [reflexivity|].
  unfold Range_entries. split; [apply NoDup_fst_map_to_list|].
  split; [by rewrite length_fmap, length_map_to_list|].
  intros name. rewrite <- (List_elem s name). split.
  - intros Hin. eexists. split; [reflexivity|]. exact Hin.
  - intros (names & [= <-] & Hin). exact Hin.
Qed.

Lemma Push_same_registries j s : same_registries s (Push j s).2.
Proof.
  unfold Push, bind, deref, gets. cbv zeta.
  destruct (jobs (world s) !! j) as [job|]; [|apply same_registries_refl].
  destruct (pipelines s !! _) as [ppl|]; [|apply same_registries_refl].
  destruct (consumers s !! _) as [d|]; [|apply same_registries_refl].
  destruct (_ =? _)%Z; unfold store, modify, ret, call_Push, call;
    destruct (cPush d j _) as [[err|] w]; by repeat split.
Qed.

Lemma PushBatch_same_registries js s : same_registries s (PushBatch js s).2.
Proof.
  revert s. induction js as [|j js IH]; intros s; [apply same_registries_refl|].
  rewrite PushBatch_cons. unfold bind.
  pose proof (Push_same_registries j s) as HP.
  destruct (Push j s) as [[[]| | |] s1]; cbn [snd] in *; try exact HP.
  eapply same_registries_trans; [exact HP | apply IH].
Qed.

Lemma Resume_found name rest ppl d s :
  pipelines s !! name = Some ppl ->
  consumers s !! pipeline.Name ppl = Some d ->
  Resume (name :: rest) s =
    Resume rest (set_world (cResume d (pipeline.Name ppl) (world s))
                   (record (CallResume d (pipeline.Name ppl)) s)).
Proof.
  intros Hp Hd. cbn [Resume]. unfold bind, gets. rewrite Hp. cbn.
  by rewrite Hd.
Qed.

Lemma Pause_same_registries names s : same_registries s (Pause names s).2.
Proof.
  revert s. induction names as [|name rest IH]; intros s;
    [apply same_registries_refl|].
  destruct (pipelines s !! name) as [ppl|] eqn:Hp;
    [|rewrite (Pause_unknown_pipeline _ _ _ Hp); by repeat split].
  destruct (consumers s !! pipeline.Name ppl) as [d|] eqn:Hd;
    [|rewrite (Pause_missing_consumer _ _ _ _ Hp Hd); by repeat split].
  rewrite (Pause_found _ _ _ _ _ Hp Hd).
  eapply same_registries_trans; [|apply IH]. by repeat split.
Qed.

Lemma Resume_same_registries names s : same_registries s (Resume names s).2.
Proof.
  revert s. induction names as [|name rest IH]; intros s;
    [apply same_registries_refl|].
  destruct (pipelines s !! name) as [ppl|] eqn:Hp;
    [|rewrite (Resume_unknown_pipeline _ _ _ Hp); by repeat split].
  destruct (consumers s !! pipeline.Name ppl) as [d|] eqn:Hd;
    [|rewrite (Resume_missing_consumer _ _ _ _ Hp Hd); by repeat split].
  rewrite (Resume_found _ _ _ _ _ Hp Hd).
  eapply same_registries_trans; [|apply IH]. by repeat split.
Qed.

(** X2: [Push], [PushBatch], [Pause] and [Resume] only route: however they
    end (nil, error, panic), the constructor table, the consumers, the
    pipeline registry and the consume-set are the ones from before the
    call. *)
Theorem routing_keeps_registries s :
  (forall j, same_registries s (Push j s).2) /\
  (forall js, same_registries s (PushBatch js s).2) /\
  (forall names, same_registries s (Pause names s).2) /\
  (forall names, same_registries s (Resume names s).2).
Proof.
  split; [intros; apply Push_same_registries|].
  split; [intros; apply PushBatch_same_registries|].
  split; [intros; apply Pause_same_registries | intros; apply Resume_same_registries].
Qed.

(** X3: the loop of [PushBatch] is [Push] applied to the jobs in order up to
    the first push that does not return nil: same result, same state, same
    error (with the same operation name) as pushing one by one. *)
Theorem PushBatch_is_each_Push js s : PushBatch js s = each Push js s.
Proof.
  revert s. induction js as [|j js IH]; intros s; [reflexivity|].
  rewrite PushBatch_cons. cbn [each]. unfold bind.
  destruct (Push j s) as [[[]| | |] s1]; try reflexivity. apply IH.
Qed.

(** *** Declaring pipelines *)

Local Ltac declare_case :=
  cbn; split; [done|]; split; [done|];
  split; [first [by left | by right]|];
  first [by left | by (right; left)
        | right; right; eexists _, _; split; reflexivity].

(** What a declaration can have done, however it ended. *)
Lemma Declare_effect pipe s :
  let r := Declare_ pipe s in
  jobConstructors r.2 = jobConstructors s /\
  consume r.2 = consume s /\
  (r.1 = Ret tt /\ pipelines r.2 = <[pipeline.Name pipe := pipe]> (pipelines s) \/
   r.1 <> Ret tt /\ pipelines r.2 = pipelines s) /\
  (jobConstructors s !! pipeline.Driver pipe = None /\ consumers r.2 = consumers s \/
   r.1 <> Ret tt /\ consumers r.2 = consumers s \/
   exists c d, jobConstructors s !! pipeline.Driver pipe = Some c /\
               consumers r.2 = <[pipeline.Name pipe := d]> (consumers s)).
Proof.
  unfold Declare_. cbv zeta.
  destruct (decide _) as [|_]; [declare_case|].
  unfold bind, gets, call, modify.
  destruct (jobConstructors s !! _) as [c|]; [|declare_case].
  destruct (FromPipeline c pipe (world s)) as [[d|err] w1]; cbn; [|declare_case].
  destruct (cRegister d pipe w1) as [[err|] w2]; cbn; [declare_case|].
  destruct (bool_decide _); cbn; [|declare_case].
  destruct (cRun d pipe w2) as [[err|] w3]; declare_case.
Qed.

(** X4: a declaration whose driver type has a constructor and whose
    construction, Register and, for a pipeline of the consume-set, Run all
    succeed returns nil, stores the new driver and the pipeline under the
    pipeline's name, and has called exactly the constructor, Register and,
    only for a pipeline of the consume-set, Run; a driver stored before under
    that name is replaced without being stopped. *)
Theorem Declare_success pipe c d w1 w2 s :
  pipeline.Driver pipe <> "" ->
  jobConstructors s !! pipeline.Driver pipe = Some c ->
  FromPipeline c pipe (world s) = (inl d, w1) ->
  cRegister d pipe w1 = (None, w2) ->
  (pipeline.Name pipe ∈ consume s -> (cRun d pipe w2).1 = None) ->
  exists s',
    Declare_ pipe s = (Ret tt, s') /\
    consumers s' = <[pipeline.Name pipe := d]> (consumers s) /\
    pipelines s' = <[pipeline.Name pipe := pipe]> (pipelines s) /\
    trace s' =
      trace s ++ [CallFromPipeline c pipe; CallRegister d pipe]
        ++ (if bool_decide (pipeline.Name pipe ∈ consume s)
            then [CallRun d pipe] else []) /\
    world s' =
      (if bool_decide (pipeline.Name pipe ∈ consume s)
       then (cRun d pipe w2).2 else w2).
Proof.
  intros Hdr Hc Hf Hr Hrun. unfold Declare_. cbv zeta.
  destruct (decide _) as [|_]; [done|].
  unfold bind, gets, call, modify. rewrite Hc, Hf. cbn. rewrite Hr. cbn.
  destruct (bool_decide _) eqn:Hin; cbn.
  - apply bool_decide_eq_true_1 in Hin. specialize (Hrun Hin).
    destruct (cRun d pipe w2) as [[err|] w3]; [done|]. cbn.
    eexists. split; [reflexivity|]. cbn. rewrite <- !app_assoc. by repeat split.
  - eexists. split; [reflexivity|]. cbn. rewrite <- !app_assoc. by repeat split.
Qed.

(** X5: a declaration that fails before a driver exists changes no
    registry: with an empty driver-type name nothing at all happens, and when
    the constructor fails only the constructor has been called. *)
Theorem Declare_failure_before_construction pipe s :
  (pipeline.Driver pipe = "" ->
     Declare_ pipe s =
       (Fail (E "jobs_plugin_declare"
                (Errorf ("no associated driver with the pipeline, pipeline name: "
                         +:+ pipeline.Name pipe))), s)) /\
  (forall c err w,
     pipeline.Driver pipe <> "" ->
     jobConstructors s !! pipeline.Driver pipe = Some c ->
     FromPipeline c pipe (world s) = (inr err, w) ->
     exists s',
       Declare_ pipe s = (Fail (E "jobs_plugin_declare" err), s') /\
       same_registries s s' /\
       world s' = w /\
       trace s' = trace s ++ [CallFromPipeline c pipe]).
Proof.
  split.
  - intros Hdr. unfold Declare_. cbv zeta. by destruct (decide _).
  - intros c err w Hdr Hc Hf. unfold Declare_. cbv zeta.
    destruct (decide _) as [|_]; [done|].
    unfold bind, gets, call, modify. rewrite Hc, Hf. cbn.
    eexists. split; [reflexivity|]. by repeat split.
Qed.

(** X6: declaring a pipeline under a name that neither registry knows and
    destroying it again gives back the two registries as they were; the
    result of [Destroy] is the result of the driver's Stop. *)
Theorem Declare_then_Destroy_restores_registries pipe s s' :
  Declare_ pipe s = (Ret tt, s') ->
  is_Some (jobConstructors s !! pipeline.Driver pipe) ->
  pipelines s !! pipeline.Name pipe = None ->
  consumers s !! pipeline.Name pipe = None ->
  exists d,
    consumers s' !! pipeline.Name pipe = Some d /\
    (Destroy (pipeline.Name pipe) s').1 =
      match (cStop d (world s')).1 with
      | Some err => Fail err
      | None => Ret tt
      end /\
    same_registries s (Destroy (pipeline.Name pipe) s').2.
Proof.
  intros HD [c Hc] Hp Hd.
  pose proof (Declare_effect pipe s) as (Hjc & Hcs & Hpl & Hco). cbv zeta in *.
  rewrite HD in *. cbn [fst snd] in *.
  destruct Hpl as [[_ Hpl]|[? _]]; [|done].
  destruct Hco as [[? _]|[[? _]|(c' & d & _ & Hco)]]; [congruence|done|].
  assert (Hp' : pipelines s' !! pipeline.Name pipe = Some pipe)
    by (rewrite Hpl; apply lookup_insert_eq).
  assert (Hd' : consumers s' !! pipeline.Name pipe = Some d)
    by (rewrite Hco; apply lookup_insert_eq).
  exists d. split; [exact Hd'|].
  rewrite (Destroy_found _ _ _ _ Hp' Hd'). cbn. split; [reflexivity|].
  repeat split; cbn; [done| | |done].
  - rewrite Hco. by apply delete_insert_id.
  - rewrite Hpl. by apply delete_insert_id.
Qed.

(** X7: a pipeline declared while its driver type has no constructor is
    listed but cannot be used or removed: [Push] to it and [Destroy] of it
    fail with "consumer not registered" and change nothing, so the pipeline
    stays in the registry. *)
Theorem driverless_pipeline_is_stuck pipe s :
  pipeline.Driver pipe <> "" ->
  jobConstructors s !! pipeline.Driver pipe = None ->
  consumers s !! pipeline.Name pipe = None ->
  let s' := (Declare_ pipe s).2 in
  pipelines s' !! pipeline.Name pipe = Some pipe /\
  (exists e,
     Destroy (pipeline.Name pipe) s' = (Fail e, s') /\
     DriverUnregistered e = true) /\
  (forall j job,
     jobs (world s') !! j = Some job ->
     structs.Pipeline (structs.Options job) = pipeline.Name pipe ->
     exists e, Push j s' = (Fail e, s') /\ DriverUnregistered e = true).
Proof.
  intros Hdr Hc Hd s'.
  assert (Hs' : s' = set_pipelines (<[pipeline.Name pipe := pipe]>) s).
  { subst s'. unfold Declare_. cbv zeta. destruct (decide _) as [|_]; [done|].
    unfold bind, gets. by rewrite Hc. }
  assert (Hp' : pipelines s' !! pipeline.Name pipe = Some pipe)
    by (rewrite Hs'; apply lookup_insert_eq).
  assert (Hd' : consumers s' !! pipeline.Name pipe = None)
    by (by rewrite Hs').
  split; [exact Hp'|]. split.
  - eexists. split.
    + unfold Destroy, bind, gets. cbv zeta. by rewrite Hp', Hd'.
    + reflexivity.
  - intros j job Hj Hname. eexists. split.
    + destruct (Push_lookup_failure_leaves j job s' Hj) as [_ Hun].
      apply Hun; [by rewrite Hname | exact Hd'].
    + reflexivity.
Qed.


(** *** Pause and Resume on names that resolve *)







(** *** Sequences of calls *)

Lemma Destroy_effect pp s :
  jobConstructors (Destroy pp s).2 = jobConstructors s /\
  consume (Destroy pp s).2 = consume s /\
  (pipelines (Destroy pp s).2 = pipelines s \/
   pipelines (Destroy pp s).2 = delete pp (pipelines s)).
Proof.
  destruct (pipelines s !! pp) as [ppl|] eqn:Hp;
    [|rewrite Destroy_not_found by done; by eauto].
  destruct (consumers s !! pipeline.Name ppl) as [d|] eqn:Hd.
  - rewrite (Destroy_found pp ppl d s Hp Hd). cbn. by eauto.
  - unfold Destroy, bind, gets. cbv zeta. rewrite Hp, Hd. by eauto.
Qed.

Lemma run_op_effect o s :
  jobConstructors (run_op o s).2 = jobConstructors s /\
  consume (run_op o s).2 = consume s /\
  (keyed_by_name s -> keyed_by_name (run_op o s).2).
Proof.
  assert (Hsame : forall s', same_registries s s' ->
            jobConstructors s' = jobConstructors s /\
            consume s' = consume s /\
            (keyed_by_name s -> keyed_by_name s')).
  { intros s' (H1 & H2 & H3 & H4). unfold keyed_by_name. by rewrite H3. }
  destruct o as [j|js|names|names|pipe|pp|]; cbn [run_op].
  - apply Hsame, Push_same_registries.
  - apply Hsame, PushBatch_same_registries.
  - apply Hsame, Pause_same_registries.
  - apply Hsame, Resume_same_registries.
  - pose proof (Declare_effect pipe s) as (H1 & H2 & H3 & _). cbv zeta in H3.
    split; [done|]. split; [done|]. unfold keyed_by_name. intros Hk key p.
    destruct H3 as [[_ ->]|[_ ->]]; [|by apply Hk].
    intros [[<- <-]|[_ Hl]]%lookup_insert_Some; eauto.
  - pose proof (Destroy_effect pp s) as (H1 & H2 & H3).
    split; [done|]. split; [done|]. unfold keyed_by_name. intros Hk key p.
    destruct H3 as [->| ->]; [by apply Hk|].
    intros [_ Hl]%lookup_delete_Some. eauto.
  - apply Hsame, same_registries_refl.
Qed.

(** X10: the constructor table and the consume-set are fixed once the
    plugin is set up: no sequence of the operations offered to callers
    (Push, PushBatch, Pause, Resume, the declaration and the destruction of
    pipelines, List), whatever their results, changes them. *)
Theorem constructor_table_is_fixed ops s :
  jobConstructors (run_ops ops s) = jobConstructors s /\
  consume (run_ops ops s) = consume s.
Proof.
  revert s. induction ops as [|o ops IH]; intros s; [done|].
  cbn [run_ops]. pose proof (run_op_effect o s) as (H1 & H2 & _).
  destruct (run_op o s) as [[[]| | |] s1]; cbn [snd] in *;
    rewrite <- ?H1, <- ?H2; try done; apply IH.
Qed.

(** X11: pipelines enter the registry only under their own name: when every
    entry of the pipeline registry is keyed by the name of its pipeline, it
    is still so after any sequence of the operations offered to callers. *)
Theorem registry_stays_keyed_by_name ops s :
  keyed_by_name s -> keyed_by_name (run_ops ops s).
Proof.
  revert s. induction ops as [|o ops IH]; intros s Hk; [done|].
  cbn [run_ops]. pose proof (run_op_effect o s) as (_ & _ & H3).
  specialize (H3 Hk).
  destruct (run_op o s) as [[[]| | |] s1]; cbn [snd] in *; auto.
Qed.

Lemma run_op_keeps_invariant o s :
  keyed_by_name s -> consumers_have_pipelines s ->
  (forall pipe, o = OpDeclare pipe -> (run_op o s).1 = Ret tt) ->
  consumers_have_pipelines (run_op o s).2.
Proof.
  intros Hk Hinv Hdecl.
  assert (Hsame : forall s', same_registries s s' -> consumers_have_pipelines s').
  { intros s' (H1 & H2 & H3 & H4). unfold consumers_have_pipelines.
    by rewrite H2, H3. }
  destruct o as [j|js|names|names|pipe|pp|]; cbn [run_op] in *.
  - apply Hsame, Push_same_registries.
  - apply Hsame, PushBatch_same_registries.
  - apply Hsame, Pause_same_registries.
  - apply Hsame, Resume_same_registries.
  - specialize (Hdecl pipe eq_refl).
    destruct (Declare_ pipe s) as [r s'] eqn:HD. cbn in Hdecl. subst r.
    by destruct (Declare_ok_keeps_invariant pipe s s' Hk Hinv HD).
  - by destruct (Destroy_keeps_invariant pp s Hk Hinv).
  - apply Hsame, same_registries_refl.
Qed.

(** X12: the registry invariant (a consumer is stored only under the name
    of a registered pipeline) survives every sequence of the operations
    offered to callers in which each declaration returns nil; pushes, pauses,
    resumes and destructions may fail as they like. *)
Theorem invariant_survives_successful_declarations ops s :
  keyed_by_name s ->
  consumers_have_pipelines s ->
  declarations_succeed ops s ->
  consumers_have_pipelines (run_ops ops s).
Proof.
  revert s. induction ops as [|o ops IH]; intros s Hk Hinv Hok; [done|].
  cbn [run_ops declarations_succeed] in *. destruct Hok as [Hdecl Hrest].
  pose proof (run_op_keeps_invariant o s Hk Hinv Hdecl) as Hinv'.
  pose proof (run_op_effect o s) as (_ & _ & Hk'). specialize (Hk' Hk).
  destruct (run_op o s) as [[[]| | |] s1]; cbn [snd] in *; auto.
Qed.

(** *** Serve *)

(** What the callback of the walk can have done to an entry, however it
    ended. *)
Lemma serve_pipe_effect entry s :
  let r := serve_pipe entry s in
  jobConstructors r.2 = jobConstructors s /\
  consume r.2 = consume s /\
  pipelines r.2 = pipelines s /\
  numPollers r.2 = numPollers s /\
  pollers r.2 = pollers s /\
  (consumers r.2 = consumers s /\
     (r.1 = Ret true -> jobConstructors s !! pipeline.Driver entry.2 = None) \/
   exists d, consumers r.2 = <[entry.1 := d]> (consumers s)).
Proof.
  unfold serve_pipe, bind, gets, call, modify, send_errCh, push_event.
  cbv zeta.
  destruct (jobConstructors s !! _) as [c|]; [|cbn; split_and!; by eauto].
  destruct (JobsConstruct c _ _) as [[d|err] w1]; cbn.
  - destruct (cRegister d _ w1) as [[err|] w2]; cbn.
    + destruct (decide _); cbn; split_and!; by eauto.
    + destruct (bool_decide _); cbn; [|split_and!; by eauto].
      destruct (cRun d _ w2) as [[err|] w3]; cbn; [|split_and!; by eauto].
      destruct (decide _); cbn; split_and!; by eauto.
  - destruct (decide _); cbn; split_and!; try done; left; by split.
Qed.

Lemma Range_serve_pipe_effect entries s :
  (forall entry, entry ∈ entries -> is_Some (pipelines s !! entry.1)) ->
  let r := Range serve_pipe entries s in
  jobConstructors r.2 = jobConstructors s /\
  consume r.2 = consume s /\
  pipelines r.2 = pipelines s /\
  numPollers r.2 = numPollers s /\
  pollers r.2 = pollers s /\
  (consumers_have_pipelines s -> consumers_have_pipelines r.2).
Proof.
  revert s. induction entries as [|entry rest IH]; intros s Hin; [done|].
  cbn [Range]. unfold bind.
  pose proof (serve_pipe_effect entry s) as (H1 & H2 & H3 & H4 & H5 & H6).
  cbv zeta in *.
  assert (Hinv : consumers_have_pipelines s ->
                 consumers_have_pipelines (serve_pipe entry s).2).
  { unfold consumers_have_pipelines. intros Hinv name. rewrite H3.
    destruct H6 as [[-> _]|[d ->]]; [by apply Hinv|].
    destruct (decide (entry.1 = name)) as [<-|Hne].
    - intros _. apply Hin, list_elem_of_here.
    - rewrite lookup_insert_ne by done. apply Hinv. }
  destruct (serve_pipe entry s) as [[[]| | |] s1]; cbn [fst snd] in *;
    try (split_and!; done).
  destruct (IH s1) as (G1 & G2 & G3 & G4 & G5 & G6).
  { intros e He. rewrite H3. apply Hin. by apply list_elem_of_further. }
  cbv zeta in *. split_and!; try congruence. auto.
Qed.

(** X13: [Serve] never touches the pipeline registry, the constructor table
    or the consume-set, and it keeps the registry invariant however it ends:
    a walk that stops at a failing entry leaves a consumer only under names
    of registered pipelines. *)
Theorem Serve_keeps_registry_invariant s :
  pipelines (Serve s).2 = pipelines s /\
  jobConstructors (Serve s).2 = jobConstructors s /\
  consume (Serve s).2 = consume s /\
  (consumers_have_pipelines s -> consumers_have_pipelines (Serve s).2).
Proof.
  unfold Serve, bind, gets, modify. cbn [fst snd].
  pose proof (Range_serve_pipe_effect (Range_entries (set_errCh [] s))
                (set_errCh [] s)) as Hwalk.
  destruct Hwalk as (H1 & H2 & H3 & _ & _ & H6).
  { intros [k p] Hin. apply elem_of_map_to_list in Hin. by exists p. }
  cbv zeta in *.
  destruct (Range serve_pipe _ _) as [[[]| | |] s1]; cbn [fst snd] in *;
    try (split_and!; done).
  unfold call, send_errCh.
  destruct (NewWorkerPool (world s1)) as [[wp|err] w]; cbn.
  - split_and!; done.
  - destruct (decide _); cbn; split_and!; done.
Qed.

Lemma all_continue_consumers entries s s1 :
  all_continue serve_pipe entries s = Some s1 ->
  jobConstructors s1 = jobConstructors s /\
  numPollers s1 = numPollers s /\
  pollers s1 = pollers s /\
  (forall name, is_Some (consumers s !! name) -> is_Some (consumers s1 !! name)) /\
  (forall entry, entry ∈ entries ->
     is_Some (jobConstructors s !! pipeline.Driver entry.2) ->
     is_Some (consumers s1 !! entry.1)).
Proof.
  revert s. induction entries as [|entry rest IH]; intros s; cbn [all_continue].
  - intros [= <-]. split_and!; try done. intros e He. by apply elem_of_nil in He.
  - pose proof (serve_pipe_effect entry s) as (H1 & _ & _ & H4 & H5 & H6).
    cbv zeta in *.
    destruct (serve_pipe entry s) as [[[]| | |] s'] eqn:Hs; try done.
    cbn [fst snd] in *. intros Hrest.
    destruct (IH s' Hrest) as (G1 & G4 & G5 & Gkeep & Gin).
    assert (Hkeep : forall name, is_Some (consumers s !! name) ->
                                 is_Some (consumers s' !! name)).
    { intros name Hn. destruct H6 as [[-> _]|[d ->]]; [done|].
      destruct (decide (entry.1 = name)) as [<-|Hne].
      - rewrite lookup_insert_eq. by eexists.
      - by rewrite lookup_insert_ne. }
    split_and!; try congruence; [by auto|].
    intros e [->|He]%elem_of_cons Hc.
    + apply Gkeep. destruct H6 as [[_ Hnone]|[d ->]].
      * rewrite Hnone in Hc by done. by destruct Hc.
      * rewrite lookup_insert_eq. by eexists.
    + apply Gin; [done|]. by rewrite H1.
Qed.


(** X15: when the walk meets no failure but the server cannot make the
    worker pool, [Serve] still returns: the error channel holds that one
    error as the server gave it, no pool is installed and no poller is
    started. *)
Theorem Serve_without_pool s s1 err w :
  all_continue serve_pipe (Range_entries s) (set_errCh [] s) = Some s1 ->
  NewWorkerPool (world s1) = (inr err, w) ->
  (Serve s).1 = Ret tt /\
  errCh (Serve s).2 = [err] /\
  workersPool (Serve s).2 = None /\
  pollers (Serve s).2 = pollers s.
Proof.
  intros Hwalk Hpool.
  pose proof (all_continue_errCh _ _ _ Hwalk) as Hch.
  pose proof (all_continue_consumers _ _ _ Hwalk) as (_ & _ & Hp & _ & _).
  pose proof (Range_all_continue serve_pipe _ [] _ _ Hwalk) as HR.
  rewrite app_nil_r in HR. cbn [Range] in HR.
  unfold Serve, bind, gets, modify. cbn [fst snd].
  replace (Range_entries (set_errCh [] s)) with (Range_entries s) by reflexivity.
  rewrite HR. unfold ret, call, send_errCh. rewrite Hpool. cbn.
  rewrite Hch. cbn. by split_and!.
Qed.

(** *** The poller loop as a whole *)




(** *** Stop *)








(** *** Reset *)

Lemma Reset_without_pool s :
  workersPool s = None ->
  Reset s =
    (Panic "invalid memory address or nil pointer dereference",
     record (Log Info "JOBS plugin got restart request. Restarting..." []) s).
Proof.
  intros Hwp. unfold Reset, bind, log, modify, gets. cbn. by rewrite Hwp.
Qed.

(** X19: when the server cannot make the new pool, [Reset] returns that
    error under its operation name and leaves the plugin without a pool, the
    registries untouched.  From then on a poller that extracts a job whose
    context resolves panics at the executor, and any further [Reset] panics
    as well, as does a [Reset] before [Serve] has installed a pool. *)
Theorem Reset_failure_leaves_no_pool (wp : Pool) err w s :
  workersPool s = Some wp ->
  NewWorkerPool (pDestroy wp (world s)) = (inr err, w) ->
  (Reset s).1 = Fail (E "jobs_plugin_reset" err) /\
  workersPool (Reset s).2 = None /\
  same_registries s (Reset s).2 /\
  (forall t, workersPool t = None -> exists msg, (Reset t).1 = Panic msg) /\
  (forall (it : Item) w0 ctx,
     (iContext it w0).1 = inl ctx ->
     exists msg, (dispatch it (set_world w0 (Reset s).2)).1 = Panic msg).
Proof.
  intros Hwp Hpool.
  assert (HR : Reset s =
    (Fail (E "jobs_plugin_reset" err),
     set_workersPool None
       (set_world w
          (record CallNewWorkerPool
             (set_workersPool None
                (set_world (pDestroy wp (world s))
                   (record (Log Info "JOBS plugin got restart request. Restarting..." [])
                      s))))))).
  { unfold Reset, bind, log, modify, gets, call. cbn. rewrite Hwp. cbn.
    by rewrite Hpool. }
  rewrite HR. cbn [fst snd].
  split; [done|]. split; [done|]. split; [by repeat split|]. split.
  - intros t Ht. rewrite (Reset_without_pool t Ht). by eexists.
  - intros it w0 ctx Hctx. unfold dispatch, bind, call, modify, gets. cbn.
    destruct (iContext it w0) as [r w']. cbn in Hctx. subst r. cbn.
    by eexists.
Qed.

(** X20: when the server makes the new pool, [Reset] destroys the old pool,
    installs the new one and returns nil; registries, stop channel and
    pollers are untouched, and only the request for the new pool and two
    log records are added to the history. *)
Theorem Reset_installs_new_pool (wp wp' : Pool) w s :
  workersPool s = Some wp ->
  NewWorkerPool (pDestroy wp (world s)) = (inl wp', w) ->
  (Reset s).1 = Ret tt /\
  workersPool (Reset s).2 = Some wp' /\
  world (Reset s).2 = w /\
  same_registries s (Reset s).2 /\
  stopCh (Reset s).2 = stopCh s /\
  pollers (Reset s).2 = pollers s /\
  trace (Reset s).2 =
    trace s ++ [Log Info "JOBS plugin got restart request. Restarting..." [];
                CallNewWorkerPool;
                Log Info "JOBS workers pool successfully restarted" []].
Proof.
  intros Hwp Hpool.
  unfold Reset, bind, log, modify, gets, call. cbn. rewrite Hwp. cbn.
  rewrite Hpool. cbn. rewrite <- !app_assoc. by split_and!.
Qed.

(** *** Init and the collection of constructors *)

Lemma each_Collect_effect (collected : list (string * Constructor)) s :
  (each (fun nc => CollectMQBrokers nc.1 nc.2) collected s).1 = Ret tt /\
  consumers (each (fun nc => CollectMQBrokers nc.1 nc.2) collected s).2
    = consumers s /\
  pipelines (each (fun nc => CollectMQBrokers nc.1 nc.2) collected s).2
    = pipelines s.
Proof.
  revert s. induction collected as [|[n c] rest IH]; intros s; [done|].
  assert (Hstep : forall k : unit -> M unit,
            bind (CollectMQBrokers n c) k s
            = k tt (set_jobConstructors (<[n := c]>) s)) by reflexivity.
  cbn [each fst snd]. rewrite !Hstep.
  destruct (IH (set_jobConstructors (<[n := c]>) s)) as (H1 & H2 & H3).
  by rewrite H1, H2, H3.
Qed.

(** X21: between [Init] and [Serve] no push is accepted: after an [Init]
    that finds and reads its configuration section and the collection of any
    driver constructors there is no live consumer, and every [Push] fails,
    with "no such pipeline" or with "consumer not registered", without
    changing anything.  Without a configuration section [Init] itself fails
    with Disabled and changes nothing; when the section cannot be read it
    fails with the error of the reading, under its operation name. *)
Theorem no_push_before_Serve (cfg : Configurer)
    (collected : list (string * Constructor)) s0 :
  let s := (bind (Init cfg)
              (fun _ => each (fun nc => CollectMQBrokers nc.1 nc.2) collected)
              s0).2 in
  (Has cfg PluginName = false ->
   Init cfg s0 = (Fail (E "jobs_plugin_init" Disabled), s0)) /\
  (forall err,
     Has cfg PluginName = true ->
     UnmarshalKey cfg PluginName = inr err ->
     (Init cfg s0).1 = Fail (E "jobs_plugin_init" err)) /\
  (forall c,
     Has cfg PluginName = true ->
     UnmarshalKey cfg PluginName = inl c ->
     (Init cfg s0).1 = Ret tt /\
     consumers s = ∅ /\
     forall j job,
       jobs (world s) !! j = Some job ->
       exists e,
         Push j s = (Fail e, s) /\
         (NotFound e = true \/ DriverUnregistered e = true)).
Proof.
  intros s. split; [|split].
  - intros Hhas. unfold Init. by rewrite Hhas.
  - intros err Hhas Hkey. unfold Init. by rewrite Hhas, Hkey.
  - intros c Hhas Hkey.
    assert (HI : (Init cfg s0).1 = Ret tt /\ consumers (Init cfg s0).2 = ∅).
    { unfold Init. by rewrite Hhas, Hkey. }
    destruct HI as [Hret Hempty]. split; [exact Hret|].
    assert (Hc : consumers s = ∅).
    { assert (Hs : s = (each (fun nc => CollectMQBrokers nc.1 nc.2) collected
                          (Init cfg s0).2).2).
      { subst s. unfold bind. destruct (Init cfg s0) as [r t].
        cbn in Hret. by subst r. }
      rewrite Hs.
      destruct (each_Collect_effect collected (Init cfg s0).2) as (_ & -> & _).
      exact Hempty. }
    split; [exact Hc|].
    intros j job Hj.
    destruct (Push_lookup_failure_leaves j job s Hj) as [Hnf Hun]. cbv zeta in *.
    destruct (pipelines s !! structs.Pipeline (structs.Options job))
      as [ppl|] eqn:Hp.
    + eexists. split; [apply (Hun ppl eq_refl); by rewrite Hc, lookup_empty|].
      by right.
    + eexists. split; [by apply Hnf|]. by left.
Qed.

End MoreProperties.

(** * The further properties on the sample backend *)

Section MoreRuns.
Import Sample SampleMore.

(** "c" is in the consume-set of [clean]: its declaration calls Run. *)
Lemma Declare_success_witness :
  pipeline.Name (pipeline.mk "c" "ephemeral" 1) ∈ consume clean /\
  (Declare_ (pipeline.mk "c" "ephemeral" 1) clean).1 = Ret tt /\
  trace (Declare_ (pipeline.mk "c" "ephemeral" 1) clean).2 =
    [CallFromPipeline 1%nat (pipeline.mk "c" "ephemeral" 1);
     CallRegister 1%nat (pipeline.mk "c" "ephemeral" 1);
     CallRun 1%nat (pipeline.mk "c" "ephemeral" 1)].
Proof.
  set (pc := pipeline.mk "c" "ephemeral" 1).
  assert (H0 : pipeline.Name pc ∈ consume clean) by (vm_compute; set_solver).
  assert (H1 : pipeline.Driver pc <> "") by done.
  assert (H2 : jobConstructors clean !! pipeline.Driver pc = Some 1%nat)
    by (vm_compute; reflexivity).
  assert (H3 : FromPipeline 1%nat pc (world clean) = (inl 1%nat, world clean))
    by reflexivity.
  assert (H4 : cRegister 1%nat pc (world clean) = (None, world clean))
    by reflexivity.
  destruct (Declare_success (B := backend) pc 1%nat 1%nat _ _ clean H1 H2 H3 H4
              (fun _ => eq_refl)) as (s' & HD & _ & _ & Ht & _).
  split; [exact H0|]. rewrite HD. cbn [fst snd]. split; [reflexivity|].
  rewrite Ht. rewrite (bool_decide_eq_true_2 _ H0). reflexivity.
Defined.

(** The driver type "noctor" cannot construct: nothing is registered. *)
Lemma Declare_failure_before_construction_witness :
  jobConstructors booted !! "noctor" = Some 0%nat /\
  (Declare_ (pipeline.mk "px" "noctor" 1) booted).1 =
    Fail (E "jobs_plugin_declare" (External 1)) /\
  same_registries booted (Declare_ (pipeline.mk "px" "noctor" 1) booted).2 /\
  Declare_ (pipeline.mk "py" "" 1) booted =
    (Fail (E "jobs_plugin_declare"
             (Errorf "no associated driver with the pipeline, pipeline name: py")),
     booted).
Proof.
  set (px := pipeline.mk "px" "noctor" 1).
  assert (H1 : jobConstructors booted !! pipeline.Driver px = Some 0%nat)
    by (vm_compute; reflexivity).
  destruct (Declare_failure_before_construction (B := backend) px booted)
    as [_ Hctor].
  destruct (Hctor 0%nat (External 1) (world booted) ltac:(done) H1 eq_refl)
    as (s' & HD & Hsame & _).
  destruct (Declare_failure_before_construction (B := backend)
              (pipeline.mk "py" "" 1) booted) as [Hempty _].
  split; [exact H1|]. rewrite HD. cbn [fst snd].
  split; [reflexivity|]. split; [exact Hsame|]. exact (Hempty eq_refl).
Defined.

(** "p1" declared on [booted] and destroyed again. *)
Lemma Declare_then_Destroy_restores_registries_witness :
  Declare_ p1 booted = (Ret tt, run (Declare_ p1) booted) /\
  pipelines booted !! "p1" = None /\
  consumers booted !! "p1" = None /\
  same_registries booted (Destroy "p1" (run (Declare_ p1) booted)).2.
Proof.
  assert (H1 : Declare_ p1 booted = (Ret tt, run (Declare_ p1) booted))
    by (vm_compute; reflexivity).
  assert (H2 : is_Some (jobConstructors booted !! pipeline.Driver p1))
    by (exists 1%nat; vm_compute; reflexivity).
  assert (H3 : pipelines booted !! pipeline.Name p1 = None)
    by (vm_compute; reflexivity).
  assert (H4 : consumers booted !! pipeline.Name p1 = None)
    by (vm_compute; reflexivity).
  destruct (Declare_then_Destroy_restores_registries (B := backend)
              p1 booted _ H1 H2 H3 H4) as (d & _ & _ & Hsame).
  split; [exact H1|]. split; [exact H3|]. split; [exact H4|]. exact Hsame.
Defined.

(** "orphan" has no constructor: it is registered and cannot be destroyed. *)
Lemma driverless_pipeline_is_stuck_witness :
  jobConstructors booted !! "unregistered" = None /\
  pipelines (Declare_ orphan booted).2 !! "orphan" = Some orphan /\
  exists e,
    Destroy "orphan" (Declare_ orphan booted).2
      = (Fail e, (Declare_ orphan booted).2) /\
    DriverUnregistered e = true.
Proof.
  assert (H1 : jobConstructors booted !! pipeline.Driver orphan = None)
    by (vm_compute; reflexivity).
  assert (H2 : consumers booted !! pipeline.Name orphan = None)
    by (vm_compute; reflexivity).
  destruct (driverless_pipeline_is_stuck (B := backend) orphan booted
              ltac:(done) H1 H2) as (Hp & Hd & _).
  split; [exact H1|]. split; [exact Hp | exact Hd].
Defined.



(** A sequence with a failing declaration and a failing push. *)
Lemma registry_stays_keyed_by_name_witness :
  keyed_by_name booted /\
  keyed_by_name
    (run_ops [OpDeclare p1; OpDeclare p2; OpPush 2%nat; OpDestroy "p1"; OpDeclare orphan]
       booted).
Proof.
  assert (H : keyed_by_name booted).
  { intros key pipe Hp. vm_compute in Hp. discriminate Hp. }
  split; [exact H|].
  exact (registry_stays_keyed_by_name (B := backend) _ booted H).
Defined.

(** A sequence whose declarations succeed while a push and a second
    destruction fail. *)
Lemma invariant_survives_successful_declarations_witness :
  keyed_by_name booted /\
  consumers_have_pipelines booted /\
  consumers_have_pipelines
    (run_ops [OpDeclare p1; OpPush 2%nat; OpDeclare orphan; OpDestroy "p1";
              OpDestroy "p1"] booted).
Proof.
  assert (Hk : keyed_by_name booted).
  { intros key pipe Hp. vm_compute in Hp. discriminate Hp. }
  assert (Hi : consumers_have_pipelines booted).
  { intros name [d Hd]. vm_compute in Hd. discriminate Hd. }
  split; [exact Hk|]. split; [exact Hi|].
  apply (invariant_survives_successful_declarations (B := backend) _ booted Hk Hi).
  cbn [declarations_succeed].
  split; [intros pipe _; vm_compute; reflexivity|].
  change (run_op (OpDeclare p1) booted) with (Declare_ p1 booted).
  replace (Declare_ p1 booted) with (Ret tt, run (Declare_ p1) booted)
    by (vm_compute; reflexivity).
  split; [intros pipe [=]|].
  set (sa := run (Declare_ p1) booted).
  replace (run_op (OpPush 2%nat) sa)
    with (@Fail unit (E "jobs_plugin_push"
                        (Errorf "no such pipeline, requested: missing")), sa)
    by (vm_compute; reflexivity).
  split; [intros pipe _; vm_compute; reflexivity|].
  change (run_op (OpDeclare orphan) sa) with (Declare_ orphan sa).
  replace (Declare_ orphan sa) with (Ret tt, run (Declare_ orphan) sa)
    by (vm_compute; reflexivity).
  split; [intros pipe [=]|].
  set (sb := run (Declare_ orphan) sa).
  replace (run_op (OpDestroy "p1") sb) with (Ret tt, run (Destroy "p1") sb)
    by (vm_compute; reflexivity).
  split; [intros pipe [=]|].
  set (sc := run (Destroy "p1") sb).
  replace (run_op (OpDestroy "p1") sc)
    with (@Fail unit (E "jobs_plugin_destroy"
                        (Errorf "no such pipeline, requested: p1")), sc)
    by (vm_compute; reflexivity).
  done.
Defined.

(** The walk of [Serve] over [configured] stops at "b", after the
    consumer of "b" has been stored: "b" is a registered pipeline. *)
Lemma Serve_keeps_registry_invariant_witness :
  consumers_have_pipelines configured /\
  consumers (Serve configured).2 !! "b" = Some 2%nat /\
  consumers_have_pipelines (Serve configured).2.
Proof.
  assert (Hi : consumers_have_pipelines configured).
  { intros name [d Hd]. vm_compute in Hd. discriminate Hd. }
  destruct (Serve_keeps_registry_invariant (B := backend) configured)
    as (_ & _ & _ & Hinv).
  split; [exact Hi|]. split; [vm_compute; reflexivity|]. exact (Hinv Hi).
Defined.


(** Under the server that cannot make a pool, [Serve] returns the channel
    with the server's error. *)
Lemma Serve_without_pool_witness :
  (@Serve poolless clean_poolless).1 = Ret tt /\
  errCh (@Serve poolless clean_poolless).2 = [External 8] /\
  workersPool (@Serve poolless clean_poolless).2 = None /\
  pollers (@Serve poolless clean_poolless).2 = 0%nat.
Proof.
  set (s1 := (@Range poolless (@serve_pipe poolless)
                (@Range_entries poolless clean_poolless)
                (@set_errCh poolless [] clean_poolless)).2).
  assert (H1 : @all_continue poolless (@serve_pipe poolless)
                 (@Range_entries poolless clean_poolless)
                 (@set_errCh poolless [] clean_poolless) = Some s1)
    by (vm_compute; reflexivity).
  assert (H2 : @NewWorkerPool poolless (@world poolless s1)
               = (inr (External 8), @world poolless s1)) by reflexivity.
  exact (Serve_without_pool (B := poolless) clean_poolless s1 (External 8) _ H1 H2).
Defined.



(** [Reset] under the server that cannot make a pool. *)
Lemma Reset_failure_leaves_no_pool_witness :
  @workersPool poolless served_poolless = Some 1%nat /\
  (@Reset poolless poolless_control served_poolless).1 =
    Fail (E "jobs_plugin_reset" (External 8)) /\
  @workersPool poolless (@Reset poolless poolless_control served_poolless).2 = None /\
  exists msg,
    (@Reset poolless poolless_control
       (@Reset poolless poolless_control served_poolless).2).1 = Panic msg.
Proof.
  assert (H1 : @workersPool poolless served_poolless = Some 1%nat) by reflexivity.
  assert (H2 : @NewWorkerPool poolless
                 (@pDestroy poolless poolless_control 1%nat
                    (@world poolless served_poolless))
               = (inr (External 8), @world poolless served_poolless))
    by reflexivity.
  destruct (Reset_failure_leaves_no_pool (B := poolless) (PC := poolless_control)
              1%nat (External 8) _ served_poolless H1 H2)
    as (Hr & Hwp & _ & Hagain & _).
  split; [exact H1|]. split; [exact Hr|]. split; [exact Hwp|].
  exact (Hagain _ Hwp).
Defined.

(** [Reset] on [polling]: pool 1 is replaced by the pool the server makes. *)
Lemma Reset_installs_new_pool_witness :
  workersPool polling = Some 1%nat /\
  (Reset polling).1 = Ret tt /\
  workersPool (Reset polling).2 = Some 1%nat /\
  stopCh (Reset polling).2 = 0%nat.
Proof.
  assert (H1 : workersPool polling = Some 1%nat) by reflexivity.
  assert (H2 : NewWorkerPool (pDestroy 1%nat (world polling))
               = (inl 1%nat, world polling)) by reflexivity.
  destruct (Reset_installs_new_pool (B := backend) (PC := pool_control)
              1%nat 1%nat _ polling H1 H2) as (Hr & Hwp & _ & _ & Hs & _).
  split; [exact H1|]. split; [exact Hr|]. split; [exact Hwp|]. exact Hs.
Defined.

(** After [Init] with "c" configured and the collection of "ephemeral", job
    1 (for "p1") is refused. *)
Lemma no_push_before_Serve_witness :
  jobs (world clean) !! 1%nat = Some (job "p1" 0) /\
  consumers clean = ∅ /\
  exists e, Push 1%nat clean = (Fail e, clean) /\
            (NotFound e = true \/ DriverUnregistered e = true).
Proof.
  assert (H1 : jobs (world clean) !! 1%nat = Some (job "p1" 0))
    by (vm_compute; reflexivity).
  destruct (no_push_before_Serve (B := backend) (CD := defaults)
              (configurer (mkConfig
                 (<["c" := pipeline.mk "c" "ephemeral" 1]>
                  (<["d" := pipeline.mk "d" "ephemeral" 2]> ∅))
                 ["c"] 2))
              [("ephemeral", 1%nat)] (@zero backend w1)) as (_ & _ & HP).
  destruct (HP _ eq_refl eq_refl) as (_ & Hc & Hpush).
  split; [exact H1|]. split; [exact Hc|]. exact (Hpush 1%nat (job "p1" 0) H1).
Defined.

(** ** Where the code falls short of the claims *)

(** C8, on the code: a [Reset] under a server that cannot make the new pool
    returns its error and leaves the plugin without a pool.  The poller
    that extracts the next job resolves its context, takes the read lock
    and panics at the call of the executor on the nil pool: the job is
    neither acked nor nacked, and the panic ends the poller loop, for any
    number of rounds.  With the pool that [Serve] installed the same job
    is executed and acked, and the poller goes on. *)
Theorem poller_panics_after_failed_Reset :
  (@Reset poolless poolless_control served_poolless).1
    = Fail (E "jobs_plugin_reset" (External 8)) /\
  @workersPool poolless pool_lost = None /\
  @stopCh poolless pool_lost = 0%nat /\
  @ExtractMin poolless (@world poolless pool_lost)
    = Some (good_item, mkWorld ∅ (mkExt [] [] [] [] [])) /\
  (forall fuel,
     (@poller poolless (S fuel) pool_lost).1
       = Panic "invalid memory address or nil pointer dereference" /\
     @trace poolless (@poller poolless (S fuel) pool_lost).2
       = @trace poolless pool_lost ++ [@CallContext poolless good_item; @RLock poolless] /\
     acked (ext (@world poolless (@poller poolless (S fuel) pool_lost).2)) = [] /\
     nacked (ext (@world poolless (@poller poolless (S fuel) pool_lost).2)) = []) /\
  List.filter (@is_ack_attempt poolless)
    (@trace poolless pool_lost ++ [@CallContext poolless good_item; @RLock poolless]) = [] /\
  (@poller_round poolless served_poolless).1 = Ret true /\
  acked (ext (@world poolless (@poller_round poolless served_poolless).2))
    = ["j2"].
Proof.
  split; [vm_compute; reflexivity|]. split; [vm_compute; reflexivity|].
  split; [vm_compute; reflexivity|]. split; [vm_compute; reflexivity|].
  split; [|split; [vm_compute; reflexivity|split; vm_compute; reflexivity]].
  intros fuel.
  assert (Hround : @poller_round poolless pool_lost
                   = (Panic "invalid memory address or nil pointer dereference",
                      (@poller_round poolless pool_lost).2))
    by (vm_compute; reflexivity).
  assert (Hloop : @poller poolless (S fuel) pool_lost
                  = (Panic "invalid memory address or nil pointer dereference",
                     (@poller_round poolless pool_lost).2)).
  { cbn [poller]. unfold bind at 1. by rewrite Hround. }
  rewrite Hloop. cbn [fst snd].
  split; [reflexivity|]. split; [vm_compute; reflexivity|].
  split; vm_compute; reflexivity.
Qed.

(** C9, on the code: in the walk over the pipelines of [configured] the
    consumer of "b" fails in Register; the walk stops there and the error
    is put on the channel, but [Serve] does not stop: it goes on to ask for
    the worker pool, installs it and starts both pollers.  Under a server
    that cannot make the pool either, the send of the second error finds
    the channel full: [Serve] never returns, and the first error stays in a
    channel that nobody has been given.  When only the pool fails, [Serve]
    sends the error and returns at once, without pool and pollers. *)
Theorem Serve_goes_on_after_failed_walk :
  (Serve configured).1 = Ret tt /\
  errCh (Serve configured).2 =
    [E "jobs_plugin_serve"
       (Errorf "pipe register failed for the driver: broken with pipe name: b")] /\
  consumers (Serve configured).2 !! "d" = None /\
  workersPool (Serve configured).2 = Some 1%nat /\
  pollers (Serve configured).2 = 2%nat /\
  (@Serve poolless broken_poolless).1 = Block /\
  @errCh poolless (@Serve poolless broken_poolless).2 =
    [E "jobs_plugin_serve"
       (Errorf "pipe register failed for the driver: broken with pipe name: b")] /\
  @pollers poolless (@Serve poolless broken_poolless).2 = 0%nat /\
  (@Serve poolless clean_poolless).1 = Ret tt /\
  @errCh poolless (@Serve poolless clean_poolless).2 = [External 8] /\
  @pollers poolless (@Serve poolless clean_poolless).2 = 0%nat.
Proof.
  split_and!; vm_compute; reflexivity.
Qed.

End MoreRuns.
